(** * KAFKA2306/333: canonical dataset, index statistics and report narrative

    A shallow embedding of
    - [src/ingest/csv_to_canonical.py]  (the canonical builder),
    - [src/analysis/pbr_stats.py], [roe_stats.py], [sector_hhi.py],
    - [src/render/common.py]            ([safe_get], [derive_logic_summary],
                                         [MissingValue], [MetricAccessor],
                                         [format_number], [format_percent]),
    - [src/render/build_site.py]        ([build_insights]),
    - [src/utils/io.py]                 ([load_dataframe]).

    Conventions.
    - Python floats are exact rationals ([Q]); NaN and a null are one missing
      value ([None] of an [option Q]); rounding is not modelled, so an equation
      between computed numbers is stated with [==].  The weights of the sector
      module are also given in IEEE binary64 ([Binary64]).
    - A raised exception is the [Raise] case of [result].
    - A frame is the list of its rows in positional order.  The frames inside
      the builder have fixed columns, the fields of a row record; a table read
      by a statistics module carries its column labels.
    - Index names and codes are strings (spec section 3); a text is the UTF-8
      encoding of the Python string.
    - A mapping is the list of its items in insertion order, with distinct
      keys. *)

From Stdlib Require Import QArith Qabs Qround ZArith String Ascii List Bool Lia.
From Stdlib Require Import DecimalString.
From Stdlib Require Import Sorted Permutation.
From Stdlib Require Import Lqa.
From Stdlib Require PrimFloat FloatOps SpecFloat.
From stdpp Require Import base option list strings functions gmap.
Import ListNotations.

Set Warnings "-register-all".
Set Warnings "-inexact-float".
Local Open Scope string_scope.
Local Open Scope list_scope.

(** ** Exceptions *)

Inductive error : Type :=
| ValueError (msg : string)
| KeyError (key : string)
| AttributeError (msg : string)
| TypeError (msg : string).

Inductive result (A : Type) : Type :=
| Ok (a : A)
| Raise (e : error).
Arguments Ok {A} a.
Arguments Raise {A} e.

#[global] Instance result_ret : MRet result := fun _ a => Ok a.
#[global] Instance result_bind : MBind result := fun _ _ k r =>
  match r with
  | Ok a => k a
  | Raise e => Raise e
  end.

Definition is_value_error {A} (r : result A) : bool :=
  match r with
  | Raise (ValueError _) => true
  | _ => false
  end.

(** ** Documents

    What [yaml.safe_load] hands to the builder.  A mapping keeps its items in
    document order. *)

Inductive yaml : Type :=
| YNull
| YBool (b : bool)
| YNum (q : Q)
| YStr (s : string)
| YList (items : list yaml)
| YDict (items : list (string * yaml)).

Definition dict := list (string * yaml).

(** Equality of two documents is decidable. *)
Definition Q_eq_dec (p q : Q) : {p = q} + {p <> q}.
Proof. decide equality; [apply Pos.eq_dec|apply Z.eq_dec]. Defined.

Fixpoint yaml_eq_dec (a b : yaml) {struct a} : {a = b} + {a <> b}.
Proof.
  decide equality.
  - apply Bool.bool_dec.
  - apply Q_eq_dec.
  - apply String.string_dec.
  - apply (List.list_eq_dec yaml_eq_dec).
  - refine (List.list_eq_dec _ _ _). intros [k x] [k' y].
    destruct (String.string_dec k k') as [->|Hk]; [|right; congruence].
    destruct (yaml_eq_dec x y) as [->|Hx]; [left; reflexivity|right; congruence].
Defined.

#[global] Instance yaml_eq : EqDecision yaml := yaml_eq_dec.

(** [d.get(k)] and [k in d]. *)
Fixpoint dict_get (d : dict) (k : string) : option yaml :=
  match d with
  | [] => None
  | (k', v) :: d' => if String.eqb k' k then Some v else dict_get d' k
  end.

Definition dict_has (d : dict) (k : string) : bool :=
  match dict_get d k with
  | Some _ => true
  | None => false
  end.

(** [d.get(k)] with Python's default [None]. *)
Definition get_or_null (d : dict) (k : string) : yaml :=
  match dict_get d k with
  | Some v => v
  | None => YNull
  end.

(** A null cell ([None] or NaN), as [isna] sees it. *)
Definition is_null (v : yaml) : bool :=
  match v with
  | YNull => true
  | _ => false
  end.

(** ** Library primitives

    Functions of Python and pandas that the sources call and do not define.
    They stay abstract; every general theorem below holds for all of them. *)

Class Runtime : Type := {
  (** [str(v)] *)
  py_str : yaml -> string;
  (** the text-to-float conversion inside [pd.to_numeric(..., errors="coerce")] *)
  parse_float : string -> option Q;
  (** [pd.to_datetime(column, errors="coerce")]: one timestamp or NaT per cell *)
  to_datetime : list yaml -> list (option Z);
  to_datetime_length : forall col, List.length (to_datetime col) = List.length col;
  (** [timestamp.strftime("%Y-%m-%d")] *)
  strftime : Z -> string
}.

(** [s.strip()].  A text is the UTF-8 encoding of the Python string, and the
    white space is that of [str.isspace]: U+0009 to U+000D, U+001C to U+0020,
    U+0085, U+00A0, U+1680, U+2000 to U+200A, U+2028, U+2029, U+202F, U+205F
    and U+3000, in one, two or three bytes. *)
Definition is_space (a : ascii) : bool :=
  let n := N_of_ascii a in
  ((9 <=? n) && (n <=? 13) || (28 <=? n) && (n <=? 32))%N.

Definition is_space2 (a b : ascii) : bool :=
  let m := N_of_ascii a in
  let n := N_of_ascii b in
  ((m =? 194) && ((n =? 133) || (n =? 160)))%N.

Definition is_space3 (a b c : ascii) : bool :=
  let m := N_of_ascii a in
  let n := N_of_ascii b in
  let k := N_of_ascii c in
  ((m =? 225) && (n =? 154) && (k =? 128)
   || (m =? 226) && (n =? 128)
        && ((128 <=? k) && (k <=? 138) || (k =? 168) || (k =? 169) || (k =? 175))
   || (m =? 226) && (n =? 129) && (k =? 159)
   || (m =? 227) && (n =? 128) && (k =? 128))%N.

(** Whether the text begins with a white-space character; [backwards] when
    the bytes are read from the end of the string. *)
Definition leading_space (backwards : bool) (s : string) : bool :=
  match s with
  | String a s1 =>
      is_space a
      || match s1 with
         | String b s2 =>
             (if backwards then is_space2 b a else is_space2 a b)
             || match s2 with
                | String c _ => if backwards then is_space3 c b a else is_space3 a b c
                | EmptyString => false
                end
         | EmptyString => false
         end
  | EmptyString => false
  end.

Fixpoint lstrip_bytes (backwards : bool) (s : string) : string :=
  match s with
  | String a s1 =>
      if is_space a then lstrip_bytes backwards s1
      else
        match s1 with
        | String b s2 =>
            if (if backwards then is_space2 b a else is_space2 a b)
            then lstrip_bytes backwards s2
            else
              match s2 with
              | String c s3 =>
                  if (if backwards then is_space3 c b a else is_space3 a b c)
                  then lstrip_bytes backwards s3
                  else s
              | EmptyString => s
              end
        | EmptyString => s
        end
  | EmptyString => EmptyString
  end.

Definition lstrip (s : string) : string := lstrip_bytes false s.

Definition strip (s : string) : string :=
  String.rev (lstrip_bytes true (String.rev (lstrip s))).

(** [pd.to_numeric(cell, errors="coerce")] on one cell of an object column. *)
Definition to_numeric `{Runtime} (v : yaml) : option Q :=
  match v with
  | YNum q => Some q
  | YBool b => Some (if b then 1 else 0)%Q
  | YStr s => parse_float s
  | YNull | YList _ | YDict _ => None
  end.

(** ** Ordering and sorting

    [sort_values] is a stable sort; [na_position="last"] puts a missing key
    after every present one. *)

Definition compare_na_last {A} (cmp : A -> A -> comparison)
    (x y : option A) : comparison :=
  match x, y with
  | Some a, Some b => cmp a b
  | Some _, None => Lt
  | None, Some _ => Gt
  | None, None => Eq
  end.

Definition lex (c1 c2 : comparison) : comparison :=
  match c1 with
  | Eq => c2
  | _ => c1
  end.

Definition not_gt (c : comparison) : bool :=
  match c with
  | Gt => false
  | _ => true
  end.

(** A three-way comparison that is a total preorder: what a sort key needs. *)
Class Comparator {A : Type} (cmp : A -> A -> comparison) : Prop := {
  cmp_opp : forall x y, cmp y x = CompOpp (cmp x y);
  cmp_lt_trans : forall x y z, cmp x y = Lt -> cmp y z = Lt -> cmp x z = Lt;
  cmp_eq_l : forall x y z, cmp x y = Eq -> cmp x z = cmp y z
}.

Section Sorting.
Context {A : Type} (leb : A -> A -> bool).

Fixpoint insert_sorted (x : A) (l : list A) : list A :=
  match l with
  | [] => [x]
  | y :: l' => if leb x y then x :: l else y :: insert_sorted x l'
  end.

(** Rows are inserted from the last to the first, each before the first row
    that is not smaller: equal keys keep their original order. *)
Definition sort_values (l : list A) : list A :=
  foldr insert_sorted [] l.

End Sorting.

(** [drop_duplicates(subset=..., keep="last")]: a row stays when no later row
    has its key. *)
Fixpoint drop_duplicates_last {A} (same : A -> A -> bool) (l : list A) : list A :=
  match l with
  | [] => []
  | x :: l' =>
      if existsb (same x) l' then drop_duplicates_last same l'
      else x :: drop_duplicates_last same l'
  end.

(** ** The canonical builder ([src/ingest/csv_to_canonical.py]) *)

Definition DEFAULT_INDEX : string := "yomiuri333".

(** One row of the constituents frame. *)
Record constituent : Type := {
  c_index : string;
  c_code : string;
  c_name : yaml;
  c_sector : yaml;
  c_weight : yaml
}.

(** One row of the financials frame; [f_date] holds the column after
    [pd.to_datetime], [None] being NaT. *)
Record financial : Type := {
  f_index : option string;
  f_code : string;
  f_date : option Z;
  f_pbr : yaml;
  f_roe : yaml;
  f_dy : yaml;
  f_market_cap : yaml;
  f_weight : yaml
}.

(** One row of the canonical table. *)
Record canonical : Type := {
  r_index : string;
  r_code : string;
  r_name : yaml;
  r_sector : yaml;
  r_weight : option Q;
  r_date : option string;
  r_pbr : option Q;
  r_roe : option Q;
  r_dy : option Q;
  r_market_cap : option Q
}.

(** A truthy index name: Python's [or] skips [None] and the empty string.
    An index name is a string; any other value is read as absent. *)
Definition truthy_name (v : option yaml) : option string :=
  match v with
  | Some (YStr s) => if String.eqb s "" then None else Some s
  | _ => None
  end.

Section Builder.
Context `{Runtime}.

(** The [record = {...}] literal of [_normalize_constituents]:
    [entry.get("index") or index_name or "yomiuri333"] and the defaults of the
    other keys. *)
Definition constituent_record (index_name : option string) (entry : dict)
    : constituent :=
  {| c_index :=
       match truthy_name (dict_get entry "index") with
       | Some s => s
       | None =>
           match truthy_name (YStr <$> index_name) with
           | Some s => s
           | None => DEFAULT_INDEX
           end
       end;
     c_code := strip (py_str (default (YStr "") (dict_get entry "code")));
     c_name := default (YStr "") (dict_get entry "name");
     c_sector := default (YStr "Unknown") (dict_get entry "sector");
     c_weight := get_or_null entry "weight" |}.

(** The entries of a non-mapping kind are skipped. *)
Definition as_dict (v : yaml) : option dict :=
  match v with
  | YDict d => Some d
  | _ => None
  end.

(** The body of the loop over [pairs]. *)
Definition constituent_group (index_name : option string) (entries : yaml)
    : result (list constituent) :=
  match entries with
  | YNull => Ok []
  | _ =>
      let candidate_entries :=
        match entries with
        | YDict d => default entries (dict_get d "records")
        | _ => entries
        end in
      match candidate_entries with
      | YList items =>
          Ok (constituent_record index_name <$> omap as_dict items)
      | _ => Raise (ValueError "Constituent entries must be provided as a list")
      end
  end.

Fixpoint constituent_groups (pairs : list (option string * yaml))
    : result (list constituent) :=
  match pairs with
  | [] => Ok []
  | (index_name, entries) :: rest =>
      rows ← constituent_group index_name entries;
      more ← constituent_groups rest;
      Ok (rows ++ more)
  end.

Definition _normalize_constituents (raw_data : yaml) : result (list constituent) :=
  let pairs :=
    match raw_data with
    | YDict d => (fun kv => (Some kv.1, kv.2)) <$> d
    | _ => [(None, raw_data)]
    end in
  rows ← constituent_groups pairs;
  match rows with
  | [] => Raise (ValueError "No constituent records found")
  | _ => Ok rows
  end.

(** [normalized_entry.setdefault("index", index_name)] on a copy of [item]. *)
Definition setdefault_index (index_name : string) (item : dict) : dict :=
  if dict_has item "index" then item else item ++ [("index", YStr index_name)].

(** The grouped shape: the items of every list-valued key, tagged with the key. *)
Definition flatten_grouped (d : dict) : list yaml :=
  flat_map (fun kv =>
    match kv.2 with
    | YList index_records =>
        (fun item => YDict (setdefault_index kv.1 item)) <$> omap as_dict index_records
    | _ => []
    end) d.

(** [entry.get("index", "yomiuri333")] as a key of the frame: a present null
    stays null.  An index name is a string; any other value is read as null. *)
Definition financial_index (entry : dict) : option string :=
  match dict_get entry "index" with
  | None => Some DEFAULT_INDEX
  | Some (YStr s) => Some s
  | Some _ => None
  end.

Definition financial_record (entry : dict) (date : option Z) : financial :=
  {| f_index := financial_index entry;
     f_code := strip (py_str (default (YStr "") (dict_get entry "code")));
     f_date := date;
     f_pbr := get_or_null entry "pbr";
     f_roe := get_or_null entry "roe";
     f_dy := get_or_null entry "dy";
     f_market_cap := get_or_null entry "market_cap";
     f_weight := get_or_null entry "weight" |}.

(** The empty list is the frame without columns that [pd.DataFrame()] builds. *)
Definition _normalize_financials (raw_data : yaml) : result (list financial) :=
  match raw_data with
  | YNull => Ok []
  | _ =>
      let entries :=
        match raw_data with
        | YDict d =>
            match dict_get d "records" with
            | Some v => v
            | None => YList (flatten_grouped d)
            end
        | _ => raw_data
        end in
      match entries with
      | YList items =>
          let normalized := omap as_dict items in
          let dates := to_datetime ((fun e => get_or_null e "date") <$> normalized) in
          Ok (zip_with financial_record normalized dates)
      | _ => Raise (ValueError "Financial records must be provided as a list")
      end
  end.

(** The sort key [["index", "code", "date"]] with [na_position="last"]. *)
Definition financial_compare (a b : financial) : comparison :=
  lex (compare_na_last String.compare (f_index a) (f_index b))
    (lex (String.compare (f_code a) (f_code b))
       (compare_na_last Z.compare (f_date a) (f_date b))).

Definition financial_leb (a b : financial) : bool :=
  not_gt (financial_compare a b).

(** Equality on the subset [["index", "code"]]; two nulls are one key. *)
Definition same_pair (a b : financial) : bool :=
  bool_decide (f_index a = f_index b) && String.eqb (f_code a) (f_code b).

(** Lines 137-144.  Every financials frame with a row has a [date] column
    ([_normalize_financials] always writes the key), so the branch without it
    is not reached. *)
Definition deduplicate (financials_df : list financial) : list financial :=
  match financials_df with
  | [] => []
  | _ => drop_duplicates_last same_pair (sort_values financial_leb financials_df)
  end.

Definition joins (c : constituent) (f : financial) : bool :=
  bool_decide (f_index f = Some (c_index c)) && String.eqb (f_code f) (c_code c).

(** [constituents_df.merge(financials_df, on=["index", "code"], how="left")]:
    the left rows in their order, each with every right row of its key, or
    alone when there is none.  A right frame without columns has no key
    column to merge on. *)
Definition merge_left (cs : list constituent) (fs : list financial)
    : result (list (constituent * option financial)) :=
  match fs with
  | [] => Raise (KeyError "index")
  | _ =>
      Ok (flat_map (fun c =>
            match List.filter (joins c) fs with
            | [] => [(c, None)]
            | matches => (fun f => (c, Some f)) <$> matches
            end) cs)
  end.

(** Lines 156-168 on one merged row: the financial weight fills a null
    constituent weight, then the numeric columns are coerced. *)
Definition canonical_row (m : constituent * option financial) : canonical :=
  let (c, fin) := m in
  let cell (col : financial -> yaml) : yaml :=
    match fin with
    | Some f => col f
    | None => YNull
    end in
  {| r_index := c_index c;
     r_code := c_code c;
     r_name := c_name c;
     r_sector := c_sector c;
     r_weight := to_numeric (if is_null (c_weight c) then cell f_weight else c_weight c);
     r_date := strftime <$> (fin ≫= f_date);
     r_pbr := to_numeric (cell f_pbr);
     r_roe := to_numeric (cell f_roe);
     r_dy := to_numeric (cell f_dy);
     r_market_cap := to_numeric (cell f_market_cap) |}.

Definition canonical_compare (a b : canonical) : comparison :=
  lex (String.compare (r_index a) (r_index b))
    (String.compare (r_code a) (r_code b)).

Definition canonical_leb (a b : canonical) : bool :=
  not_gt (canonical_compare a b).

(** [build_canonical], on the two loaded documents; a financials file that
    does not exist is the null document. *)
Definition build_canonical (constituents_raw financials_raw : yaml)
    : result (list canonical) :=
  constituents_df ← _normalize_constituents constituents_raw;
  financials_df ← _normalize_financials financials_raw;
  merged ← merge_left constituents_df (deduplicate financials_df);
  Ok (sort_values canonical_leb (canonical_row <$> merged)).

End Builder.

(** A concrete runtime for evaluating examples: exact on the text, numbers and
    ISO dates they use. *)
Module Fixture.

Definition digit (a : ascii) : option Z :=
  let n := Z.of_N (N_of_ascii a) in
  if ((48 <=? n) && (n <=? 57))%Z then Some (n - 48)%Z else None.

Fixpoint digits (acc : Z) (s : string) : option Z :=
  match s with
  | EmptyString => Some acc
  | String a s' =>
      match digit a with
      | Some d => digits (10 * acc + d)%Z s'
      | None => None
      end
  end.

(** Unsigned decimal integers; any other text is not a number. *)
Definition decimal (s : string) : option Q :=
  match s with
  | EmptyString => None
  | _ => inject_Z <$> digits 0 s
  end.

(** [YYYY-MM-DD] read as the number YYYYMMDD, which orders like the date. *)
Definition iso_date (v : yaml) : option Z :=
  match v with
  | YStr s =>
      if (String.length s =? 10)%nat
         && String.eqb (substring 4 1 s) "-" && String.eqb (substring 7 1 s) "-"
      then digits 0 (substring 0 4 s ++ substring 5 2 s ++ substring 8 2 s)
      else None
  | _ => None
  end.

(** [str] of a string, of [None] and of a boolean; the samples print nothing
    else. *)
Definition text (v : yaml) : string :=
  match v with
  | YStr s => s
  | YNull => "None"
  | YBool true => "True"
  | YBool false => "False"
  | _ => ""
  end.

(** The number YYYYMMDD printed as [YYYY-MM-DD]. *)
Definition iso_text (ts : Z) : string :=
  let s := NilZero.string_of_uint (N.to_uint (Z.to_N ts)) in
  substring 0 4 s ++ "-" ++ substring 4 2 s ++ "-" ++ substring 6 2 s.

#[export] Instance runtime : Runtime :=
  {| py_str := text;
     parse_float := decimal;
     to_datetime := fmap iso_date;
     to_datetime_length := fun col => length_fmap iso_date col;
     strftime := iso_text |}.

End Fixture.

(** The record of a constituent's key that deduplication keeps: the last one
    in the sorted financials frame. *)
Definition latest `{Runtime} (financials_df : list financial) (c : constituent)
    : option financial :=
  last (List.filter (joins c) (sort_values financial_leb financials_df)).

(** The order of the final [sort_values(["index", "code"])]. *)
Definition key_le (a b : canonical) : Prop :=
  String.ltb (r_index a) (r_index b) = true
  \/ (r_index a = r_index b /\ String.leb (r_code a) (r_code b) = true).

Definition canonical_key (r : canonical) : string * string :=
  (r_index r, r_code r).

Definition constituent_key (c : constituent) : string * string :=
  (c_index c, c_code c).


(** ** Sample documents *)

Module Sample.

(** The constituents of [tests/test_pipeline.py]. *)
Definition constituents : yaml :=
  YDict
    [("yomiuri333",
      YList
        [YDict [("code", YStr "1001"); ("name", YStr "Alpha");
                ("sector", YStr "Materials"); ("weight", YNum 0.5)];
         YDict [("code", YStr "2002"); ("name", YStr "Beta");
                ("sector", YStr "Industrials"); ("weight", YNum 0.5)]]);
     ("topix",
      YList
        [YDict [("code", YStr "1001"); ("name", YStr "Alpha");
                ("sector", YStr "Materials"); ("weight", YNum 0.6)];
         YDict [("code", YStr "2002"); ("name", YStr "Beta");
                ("sector", YStr "Industrials"); ("weight", YNum 0.25)];
         YDict [("code", YStr "3003"); ("name", YStr "Gamma");
                ("sector", YStr "IT"); ("weight", YNum 0.15)]])].

Definition financial_entry (index code date : string) (pbr roe dy : yaml) : yaml :=
  YDict [("index", YStr index); ("code", YStr code); ("date", YStr date);
         ("pbr", pbr); ("roe", roe); ("dy", dy)].

(** The financials of [tests/test_pipeline.py]. *)
Definition financials : yaml :=
  YList
    [financial_entry "yomiuri333" "1001" "2023-12-31" (YNum 0.8) (YNum 5) (YNum 2.6);
     financial_entry "yomiuri333" "2002" "2023-12-31" (YNum 1.2) (YNum 3.6) (YNum 2.1);
     financial_entry "topix" "1001" "2023-12-31" (YNum 1.4) (YNum 7.5) (YNum 1.8);
     financial_entry "topix" "2002" "2023-12-31" (YNum 0.9) (YNum 5.5) (YNum 1.9);
     financial_entry "topix" "3003" "2023-12-31" (YNum 2.1) (YNum 10.5) (YNum 1.2)].

Definition rows_of (r : result (list canonical)) : list canonical :=
  match r with
  | Ok rows => rows
  | Raise _ => []
  end.

Definition canonical_rows : list canonical :=
  Eval vm_compute in rows_of (build_canonical (H := Fixture.runtime) constituents financials).

(** One code listed twice in a flat constituents document. *)
Definition listed_twice : yaml :=
  YList [YDict [("code", YStr "1001"); ("name", YStr "Alpha")];
         YDict [("code", YStr "1001"); ("name", YStr "Alpha again")]].

(** One constituent with two financial records, the first without a date. *)
Definition one_constituent : yaml :=
  YDict [("yomiuri333", YList [YDict [("code", YStr "1001"); ("name", YStr "Alpha")]])].

Definition undated_then_dated : yaml :=
  YList
    [YDict [("index", YStr "yomiuri333"); ("code", YStr "1001"); ("date", YNull);
            ("pbr", YNum 1.5)];
     YDict [("index", YStr "yomiuri333"); ("code", YStr "1001");
            ("date", YStr "2023-12-31"); ("pbr", YNum 0.8)]].

(** A constituent with a weight of its own, and a financial record whose
    [roe] and [weight] are text that is no number. *)
Definition weighted_constituent : yaml :=
  YDict [("yomiuri333",
          YList [YDict [("code", YStr "1001"); ("weight", YNum 0.5)];
                 YDict [("code", YStr "2002")]])].

Definition text_cells : yaml :=
  YList
    [YDict [("index", YStr "yomiuri333"); ("code", YStr "1001");
            ("date", YStr "2023-12-31"); ("pbr", YNum 0.8); ("roe", YStr "n/a");
            ("weight", YStr "n/a")];
     YDict [("index", YStr "yomiuri333"); ("code", YStr "2002");
            ("date", YStr "2023-12-31"); ("pbr", YStr "n/a"); ("roe", YNum 3.6);
            ("weight", YStr "n/a")]].

Definition constituents_df : list constituent :=
  Eval vm_compute in
    match _normalize_constituents (H := Fixture.runtime) weighted_constituent with
    | Ok cs => cs
    | Raise _ => []
    end.

Definition financials_df : list financial :=
  Eval vm_compute in
    match _normalize_financials (H := Fixture.runtime) text_cells with
    | Ok fs => fs
    | Raise _ => []
    end.

End Sample.

(** ** Tables read by the statistics modules

    A [pd.DataFrame] as [load_dataframe] returns it: the column labels and the
    rows, each a mapping from label to cell.  A label that a row does not
    carry is a null cell. *)

Record DataFrame : Type := {
  columns : list string;
  rows : list (gmap string yaml)
}.

Definition has_column (dataset : DataFrame) (label : string) : bool :=
  bool_decide (label ∈ columns dataset).

Definition cell (row : gmap string yaml) (label : string) : yaml :=
  default YNull (row !! label).

(** The group label of a row.  [groupby] drops the rows with a null label;
    index names are strings, another value is read as null. *)
Definition index_of (row : gmap string yaml) : option string :=
  match cell row "index" with
  | YStr s => Some s
  | _ => None
  end.

(** The labels of a [groupby]: distinct, in sorted order. *)
Definition group_keys (labels : list string) : list string :=
  sort_values String.leb (remove_dups labels).

(** The rows of one index, in table order. *)
Definition index_group (dataset : DataFrame) (index_name : string) : DataFrame :=
  {| columns := columns dataset;
     rows := filter (fun row => index_of row = Some index_name) (rows dataset) |}.

(** [dataset.groupby("index")] *)
Definition groupby_index (dataset : DataFrame) : list (string * DataFrame) :=
  (fun index_name => (index_name, index_group dataset index_name))
    <$> group_keys (omap index_of (rows dataset)).

(** *** Series arithmetic *)

Definition Qsum (series : list Q) : Q := foldr Qplus 0%Q series.

Definition Qnat (n : nat) : Q := inject_Z (Z.of_nat n).

Definition Qltb (x y : Q) : bool := negb (Qle_bool y x).

Definition mean (series : list Q) : Q :=
  (Qsum series / Qnat (List.length series))%Q.

(** [Series.median]: the middle value, or the mean of the two middle ones. *)
Definition median (series : list Q) : Q :=
  let sorted := sort_values Qle_bool series in
  let n := List.length series in
  if Nat.even n
  then ((nth (n / 2 - 1) sorted 0 + nth (n / 2) sorted 0) / 2)%Q
  else nth (n / 2) sorted 0%Q.

(** [Series.quantile(q)] with linear interpolation. *)
Definition quantile (series : list Q) (q : Q) : Q :=
  let sorted := sort_values Qle_bool series in
  let position := (q * Qnat (List.length series - 1))%Q in
  let lower := nth (Z.to_nat (Qfloor position)) sorted 0%Q in
  let upper := nth (Z.to_nat (Qceiling position)) sorted 0%Q in
  (lower + (position - inject_Z (Qfloor position)) * (upper - lower))%Q.

Section Statistics.
Context `{Runtime}.

(** [pd.to_numeric(subset[label], errors="coerce").dropna()] *)
Definition numeric_values (subset : DataFrame) (label : string) : list Q :=
  omap (fun row => to_numeric (cell row label)) (rows subset).

(** *** [src/analysis/pbr_stats.py] *)

Record pbr_metrics : Type := {
  pbr_lt1 : gmap string (option Q);
  pbr_mean : gmap string (option Q);
  pbr_median : gmap string (option Q);
  pbr_count : gmap string nat
}.

(** The body of the loop over the groups. *)
Definition pbr_step (metrics : pbr_metrics) (group : string * DataFrame) : pbr_metrics :=
  let (index_name, subset) := group in
  let series := numeric_values subset "pbr" in
  let count := List.length series in
  match count with
  | O =>
      {| pbr_lt1 := <[index_name := None]> (pbr_lt1 metrics);
         pbr_mean := <[index_name := None]> (pbr_mean metrics);
         pbr_median := <[index_name := None]> (pbr_median metrics);
         pbr_count := <[index_name := count]> (pbr_count metrics) |}
  | S _ =>
      let lt1_ratio :=
        (Qnat (List.length (List.filter (fun x => Qltb x 1) series)) / Qnat count)%Q in
      {| pbr_lt1 := <[index_name := Some lt1_ratio]> (pbr_lt1 metrics);
         pbr_mean := <[index_name := Some (mean series)]> (pbr_mean metrics);
         pbr_median := <[index_name := Some (median series)]> (pbr_median metrics);
         pbr_count := <[index_name := count]> (pbr_count metrics) |}
  end.

Definition compute_pbr_stats (dataset : DataFrame) : result pbr_metrics :=
  if negb (has_column dataset "index")
  then Raise (ValueError "Canonical dataset must include an 'index' column")
  else if negb (has_column dataset "pbr")
  then Raise (ValueError "Canonical dataset must include a 'pbr' column")
  else
    Ok (foldl pbr_step
          {| pbr_lt1 := ∅; pbr_mean := ∅; pbr_median := ∅; pbr_count := ∅ |}
          (groupby_index dataset)).

(** *** [src/analysis/roe_stats.py] *)

(** [QUANTILES], each with its key [str(int(q * 100))]. *)
Definition QUANTILES : list (string * Q) :=
  [("25", 0.25%Q); ("50", 0.5%Q); ("75", 0.75%Q)].

Record roe_metrics : Type := {
  roe_median : gmap string (option Q);
  roe_quantiles : gmap string (gmap string (option Q));
  roe_count : gmap string nat
}.

(** [metrics["quantiles"][key][index_name] = value] for every quantile. *)
Definition set_quantiles (index_name : string) (value : Q -> option Q)
    (quantiles : gmap string (gmap string (option Q)))
    : gmap string (gmap string (option Q)) :=
  foldl (fun qs kq =>
           <[kq.1 := <[index_name := value kq.2]> (default ∅ (qs !! kq.1))]> qs)
        quantiles QUANTILES.

Definition roe_step (metrics : roe_metrics) (group : string * DataFrame) : roe_metrics :=
  let (index_name, subset) := group in
  let series := numeric_values subset "roe" in
  let count := List.length series in
  match count with
  | O =>
      {| roe_median := <[index_name := None]> (roe_median metrics);
         roe_quantiles := set_quantiles index_name (fun _ => None) (roe_quantiles metrics);
         roe_count := <[index_name := count]> (roe_count metrics) |}
  | S _ =>
      {| roe_median := <[index_name := Some (median series)]> (roe_median metrics);
         roe_quantiles :=
           set_quantiles index_name (fun q => Some (quantile series q)) (roe_quantiles metrics);
         roe_count := <[index_name := count]> (roe_count metrics) |}
  end.

Definition compute_roe_stats (dataset : DataFrame) : result roe_metrics :=
  if negb (has_column dataset "index")
  then Raise (ValueError "Canonical dataset must include an 'index' column")
  else if negb (has_column dataset "roe")
  then Raise (ValueError "Canonical dataset must include a 'roe' column")
  else
    Ok (foldl roe_step
          {| roe_median := ∅;
             roe_quantiles := list_to_map ((fun kq => (kq.1, ∅)) <$> QUANTILES);
             roe_count := ∅ |}
          (groupby_index dataset)).

(** *** [src/analysis/sector_hhi.py] *)

(** [pd.Series(1.0, index=subset.index)] *)
Definition equal_weights (subset : DataFrame) : list Q :=
  (fun _ => 1%Q) <$> rows subset.

(** [_resolve_weights], over exact rationals ([Binary64._resolve_weights]
    below has the floats).  Without a [weight] column [subset.get("weight")]
    is [None], [pd.to_numeric] of it is the scalar NaN, and the call of its
    [notna] raises. *)
Definition _resolve_weights (subset : DataFrame) : result (list Q) :=
  if negb (has_column subset "weight")
  then Raise (AttributeError "'numpy.float64' object has no attribute 'notna'")
  else
    let coerced := (fun row => to_numeric (cell row "weight")) <$> rows subset in
    let weights :=
      if existsb (fun w : option Q => bool_decide (is_Some w)) coerced
      then default 0%Q <$> coerced
      else equal_weights subset in
    let total := Qsum weights in
    if Qle_bool total 0
    then Ok ((fun w => w / Qsum (equal_weights subset))%Q <$> equal_weights subset)
    else Ok ((fun w => w / total)%Q <$> weights).

(** [series.fillna(value)] on one cell. *)
Definition fillna (value cell : yaml) : yaml :=
  if is_null cell then value else cell.

(** The key under which a [groupby] files a label: two equal numbers are one
    key, and [True] is the number 1. *)
Definition label_key (label : yaml) : yaml :=
  match label with
  | YNum q => YNum (Qred q)
  | YBool b => YNum (if b then 1 else 0)
  | _ => label
  end.

(** [subset["sector"].fillna("Unknown")], as the key of the [groupby]. *)
Definition sector_of (row : gmap string yaml) : yaml :=
  label_key (fillna (YStr "Unknown") (cell row "sector")).

(** [weights.groupby(sector_series).sum()]: every row adds its weight to the
    slot of its label, and there is one sum for every distinct label.  pandas
    lists the sums by sorted label; the index is a sum over them. *)
Definition group_sums (labels : list yaml) (weights : list Q) : yaml -> Q :=
  foldl (fun sums lw => <[lw.1 := (sums lw.1 + lw.2)%Q]> sums)
        (fun _ => 0%Q) (zip labels weights).

Definition sector_weights (labels : list yaml) (weights : list Q) : list Q :=
  group_sums labels weights <$> remove_dups labels.

Definition hhi_value (subset : DataFrame) (weights : list Q) : Q :=
  Qsum ((fun w => w ^ 2)%Q <$> sector_weights (sector_of <$> rows subset) weights).

(** [weights.sort_values(ascending=False).head(10).sum()] *)
Definition top10_value (weights : list Q) : Q :=
  Qsum (take 10 (sort_values (fun a b => Qle_bool b a) weights)).

Record concentration_metrics : Type := {
  hhi : gmap string Q;
  top10_weight : gmap string Q;
  constituents : gmap string nat
}.

Definition concentration_step (metrics : concentration_metrics)
    (group : string * DataFrame) : result concentration_metrics :=
  let (index_name, subset) := group in
  weights ← _resolve_weights subset;
  Ok {| hhi := <[index_name := hhi_value subset weights]> (hhi metrics);
        top10_weight := <[index_name := top10_value weights]> (top10_weight metrics);
        constituents := <[index_name := List.length (rows subset)]> (constituents metrics) |}.

(** The loop: the first group that raises ends it. *)
Fixpoint concentration_loop (metrics : concentration_metrics)
    (groups : list (string * DataFrame)) : result concentration_metrics :=
  match groups with
  | [] => Ok metrics
  | group :: rest =>
      metrics' ← concentration_step metrics group;
      concentration_loop metrics' rest
  end.

Definition compute_concentration_metrics (dataset : DataFrame)
    : result concentration_metrics :=
  if negb (has_column dataset "index")
  then Raise (ValueError "Canonical dataset must include an 'index' column")
  else if negb (has_column dataset "sector")
  then Raise (ValueError "Canonical dataset must include a 'sector' column")
  else
    concentration_loop {| hhi := ∅; top10_weight := ∅; constituents := ∅ |}
      (groupby_index dataset).

(** The canonical table as the frame handed to the statistics modules. *)
Definition numeric_cell (x : option Q) : yaml :=
  match x with
  | Some q => YNum q
  | None => YNull
  end.

Definition canonical_cells (r : canonical) : gmap string yaml :=
  list_to_map
    [("index", YStr (r_index r)); ("code", YStr (r_code r));
     ("name", r_name r); ("sector", r_sector r);
     ("weight", numeric_cell (r_weight r));
     ("date", from_option YStr YNull (r_date r));
     ("pbr", numeric_cell (r_pbr r)); ("roe", numeric_cell (r_roe r));
     ("dy", numeric_cell (r_dy r));
     ("market_cap", numeric_cell (r_market_cap r))].

Definition canonical_frame (table : list canonical) : DataFrame :=
  {| columns := ["index"; "code"; "name"; "sector"; "weight"; "date";
                 "pbr"; "roe"; "dy"; "market_cap"];
     rows := canonical_cells <$> table |}.

(** The weights of a group, once [_resolve_weights] has returned. *)
Definition resolved (subset : DataFrame) : list Q :=
  match _resolve_weights subset with
  | Ok weights => weights
  | Raise _ => []
  end.

(** One turn of the loop of [compute_concentration_metrics] when the weights
    resolve. *)
Definition concentration_assign (metrics : concentration_metrics)
    (group : string * DataFrame) : concentration_metrics :=
  {| hhi := <[group.1 := hhi_value group.2 (resolved group.2)]> (hhi metrics);
     top10_weight := <[group.1 := top10_value (resolved group.2)]> (top10_weight metrics);
     constituents := <[group.1 := List.length (rows group.2)]> (constituents metrics) |}.

End Statistics.

(** *** The weights in binary64

    [_resolve_weights] once more, on the floats of the code: the column after
    [pd.to_numeric], NaN being the missing weight, with the additions, the
    comparison and the divisions of IEEE 754 binary64. *)

Module Binary64.
Import PrimFloat.

(** The rational that a finite float is; 0 for an infinity and for NaN. *)
Definition exact (x : float) : Q :=
  match FloatOps.Prim2SF x with
  | SpecFloat.S754_finite negative mantissa exponent =>
      ((if negative then -1 else 1) * inject_Z (Zpos mantissa) * Qpower 2 exponent)%Q
  | _ => 0%Q
  end.

Section Resolve.

(** [weights.sum()]: pandas leaves the order of the additions to numpy. *)
Variable series_sum : list float -> float.

Definition _resolve_weights (coerced : list float) : list float :=
  let ones := (fun _ => 1%float) <$> coerced in
  let weights :=
    if existsb (fun w => negb (is_nan w)) coerced
    then (fun w => if is_nan w then 0%float else w) <$> coerced
    else ones in
  let total := series_sum weights in
  if (total <=? 0)%float
  then (fun w => w / series_sum ones)%float <$> ones
  else (fun w => w / total)%float <$> weights.

End Resolve.




End Binary64.

(** *** What the specification says of the sector index

    The sum, over the sectors, of the squared sum of the weights of the
    sector's rows. *)




(** The rows of one index in a canonical table, and a count over them that is
    reported only when there is a row. *)
Definition rows_of_index (table : list canonical) (index_name : string) : list canonical :=
  filter (fun r => r_index r = index_name) table.

Definition reported (group : list canonical) (count : nat) : option nat :=
  match group with
  | [] => None
  | _ => Some count
  end.



(** A frame with the columns [index] and [sector] only. *)
Definition no_weight_frame : DataFrame :=
  {| columns := ["index"; "sector"];
     rows := [list_to_map [("index", YStr "yomiuri333"); ("sector", YStr "IT")]] |}.

(** Two rows of one index whose sectors are the numbers 5 and 7. *)
Definition numbered_sectors : DataFrame :=
  {| columns := ["index"; "sector"; "weight"];
     rows := [list_to_map [("index", YStr "yomiuri333"); ("sector", YNum 5)];
              list_to_map [("index", YStr "yomiuri333"); ("sector", YNum 7)]] |}.

(** A canonical table of one row whose sector and weight are null. *)
Definition unclassified_row : canonical :=
  {| r_index := "yomiuri333"; r_code := "1001"; r_name := YStr "Alpha";
     r_sector := YNull; r_weight := None; r_date := None;
     r_pbr := None; r_roe := None; r_dy := None; r_market_cap := None |}.

(** ** Report narrative ([src/render/common.py])

    A metrics document as [load_metrics] returns it: nested mappings whose
    leaves are the numbers and nulls that the statistics modules write. *)

Inductive json : Type :=
| JNull
| JNum (q : Q)
| JDict (items : list (string * json)).

Fixpoint json_get (d : list (string * json)) (k : string) : option json :=
  match d with
  | [] => None
  | (k', v) :: d' => if String.eqb k' k then Some v else json_get d' k
  end.

(** [safe_get(data, *keys)]; [JNull] is Python's [None]. *)
Fixpoint safe_get (cursor : json) (keys : list string) : json :=
  match keys with
  | [] => cursor
  | key :: keys' =>
      match cursor with
      | JDict d =>
          match json_get d key with
          | None | Some JNull => JNull
          | Some cursor' => safe_get cursor' keys'
          end
      | _ => JNull
      end
  end.

Definition is_none (v : json) : bool :=
  match v with
  | JNull => true
  | _ => false
  end.

(** Arithmetic and ordering of two values that are not [None]: a mapping
    supports neither. *)
Definition number (v : json) : result Q :=
  match v with
  | JNum q => Ok q
  | _ => Raise (TypeError "unsupported operand type")
  end.

Definition Qgtb (x y : Q) : bool := negb (Qle_bool x y).

Inductive family : Type := PBR | ROE | DY | HHI | TOP10.

#[global] Instance family_eq_dec : EqDecision family.
Proof. solve_decision. Defined.

(** The sentences, each with the numbers it prints. *)
Inductive bullet : Type :=
| PbrHigher (diff : Q)
| PbrLower (gap : Q)
| PbrMissing
| RoeAtLeast (y_roe t_roe : Q)
| RoeLower (gap : Q)
| RoeMissing
| DyAbove (diff : Q)
| DyBelow (gap : Q)
| DyMissing
| HhiHigher (t_hhi y_hhi : Q)
| HhiDiversified (y_hhi : Q)
| HhiMissing
| Top10Missing.

Definition family_of (b : bullet) : family :=
  match b with
  | PbrHigher _ | PbrLower _ | PbrMissing => PBR
  | RoeAtLeast _ _ | RoeLower _ | RoeMissing => ROE
  | DyAbove _ | DyBelow _ | DyMissing => DY
  | HhiHigher _ _ | HhiDiversified _ | HhiMissing => HHI
  | Top10Missing => TOP10
  end.

Record summary : Type := {
  strengths : list bullet;
  weaknesses : list bullet;
  cautions : list bullet
}.

Definition strength (s : summary) (b : bullet) : summary :=
  {| strengths := strengths s ++ [b]; weaknesses := weaknesses s; cautions := cautions s |}.

Definition weakness (s : summary) (b : bullet) : summary :=
  {| strengths := strengths s; weaknesses := weaknesses s ++ [b]; cautions := cautions s |}.

Definition caution (s : summary) (b : bullet) : summary :=
  {| strengths := strengths s; weaknesses := weaknesses s; cautions := cautions s ++ [b] |}.

(** Lines 118-135. *)
Definition pbr_bullet (pbr : json) (s : summary) : result summary :=
  let y_ratio := safe_get pbr ["lt1"; "yomiuri333"] in
  let t_ratio := safe_get pbr ["lt1"; "topix"] in
  if negb (is_none y_ratio) && negb (is_none t_ratio) then
    y ← number y_ratio; t ← number t_ratio;
    let diff := (y - t)%Q in
    if Qgtb diff 0 then Ok (strength s (PbrHigher diff))
    else Ok (weakness s (PbrLower (Qabs diff)))
  else Ok (caution s PbrMissing).

(** Lines 137-152. *)
Definition roe_bullet (roe : json) (s : summary) : result summary :=
  let y_roe := safe_get roe ["median"; "yomiuri333"] in
  let t_roe := safe_get roe ["median"; "topix"] in
  if negb (is_none y_roe) && negb (is_none t_roe) then
    y ← number y_roe; t ← number t_roe;
    let diff := (y - t)%Q in
    if Qle_bool 0 diff then Ok (strength s (RoeAtLeast y t))
    else Ok (weakness s (RoeLower (Qabs diff)))
  else Ok (caution s RoeMissing).

(** Lines 154-171. *)
Definition dy_bullet (dy : json) (s : summary) : result summary :=
  let y_dy := safe_get dy ["mean"; "yomiuri333"] in
  let t_dy := safe_get dy ["mean"; "topix"] in
  if negb (is_none y_dy) && negb (is_none t_dy) then
    y ← number y_dy; t ← number t_dy;
    let diff := (y - t)%Q in
    if Qle_bool 0 diff then Ok (strength s (DyAbove diff))
    else Ok (weakness s (DyBelow (Qabs diff)))
  else Ok (caution s DyMissing).

(** Lines 173-187. *)
Definition hhi_bullet (hhi : json) (s : summary) : result summary :=
  let y_hhi := safe_get hhi ["hhi"; "yomiuri333"] in
  let t_hhi := safe_get hhi ["hhi"; "topix"] in
  if negb (is_none y_hhi) then
    if negb (is_none t_hhi) then
      y ← number y_hhi; t ← number t_hhi;
      if Qgtb y t then Ok (weakness s (HhiHigher t y))
      else Ok (strength s (HhiDiversified y))
    else
      y ← number y_hhi; Ok (strength s (HhiDiversified y))
  else Ok (caution s HhiMissing).

(** Lines 189-193. *)
Definition top10_bullet (hhi : json) (s : summary) : summary :=
  if is_none (safe_get hhi ["top10_weight"; "yomiuri333"])
  then caution s Top10Missing
  else s.

Definition derive_logic_summary (pbr roe dy hhi : json) : result summary :=
  s ← pbr_bullet pbr {| strengths := []; weaknesses := []; cautions := [] |};
  s ← roe_bullet roe s;
  s ← dy_bullet dy s;
  s ← hhi_bullet hhi s;
  Ok (top10_bullet hhi s).

(** The values of one family that the narrative compares. *)
Definition primary (f : family) (pbr roe dy hhi : json) : json :=
  match f with
  | PBR => safe_get pbr ["lt1"; "yomiuri333"]
  | ROE => safe_get roe ["median"; "yomiuri333"]
  | DY => safe_get dy ["mean"; "yomiuri333"]
  | HHI => safe_get hhi ["hhi"; "yomiuri333"]
  | TOP10 => safe_get hhi ["top10_weight"; "yomiuri333"]
  end.

Definition benchmark (f : family) (pbr roe dy hhi : json) : json :=
  match f with
  | PBR => safe_get pbr ["lt1"; "topix"]
  | ROE => safe_get roe ["median"; "topix"]
  | DY => safe_get dy ["mean"; "topix"]
  | HHI => safe_get hhi ["hhi"; "topix"]
  | TOP10 => JNull
  end.

(** A compared value is a number or is missing. *)
Definition scalar (v : json) : Prop :=
  match v with
  | JDict _ => False
  | _ => True
  end.

Definition comparable (pbr roe dy hhi : json) : Prop :=
  forall f, f <> TOP10 -> scalar (primary f pbr roe dy hhi) /\ scalar (benchmark f pbr roe dy hhi).

Definition bullets_of (f : family) (bucket : list bullet) : list bullet :=
  filter (fun b => family_of b = f) bucket.

(** *** [MissingValue] and [MetricAccessor] *)

(** What an access returns: an accessor over a mapping, the sentinel, or a
    leaf of the document. *)
Inductive object : Type :=
| MetricAccessor (_data : list (string * json))
| MissingValue
| Number (q : Q).

Inductive access : Type :=
| Attribute (item : string)
| Item (item : string).

Definition item_of (a : access) : string :=
  match a with
  | Attribute item | Item item => item
  end.

(** [MetricAccessor.__getattr__] *)
Definition MetricAccessor_getattr (_data : list (string * json)) (item : string) : object :=
  match json_get _data item with
  | Some (JDict value) => MetricAccessor value
  | Some JNull | None => MissingValue
  | Some (JNum value) => Number value
  end.

(** What an access returns: an object of the three kinds, or another object
    of Python (a bound method, the mapping under [_data], ...). *)
Inductive value {foreign : Type} : Type :=
| Known (o : object)
| Other (v : foreign).

Arguments value : clear implicits.

(** What the classes leave to Python. *)
Class Interpreter : Type := {
  (** the other objects *)
  foreign : Type;
  (** ordinary attribute lookup, which Python tries before it calls
      [__getattr__]: what it finds under a name, if anything ([_data] and
      [to_dict] on an accessor, [real] on a number, the double-underscore
      names, ...) *)
  lookup : object -> string -> option (value foreign);
  (** one access on another object *)
  foreign_get : foreign -> access -> result (value foreign)
}.

Section Accesses.
Context `{Interpreter}.

(** [o[item]]: the accessor's [__getitem__] calls its [__getattr__], the
    sentinel's returns the sentinel, and a number has no items. *)
Definition getitem (o : object) (item : string) : result (value foreign) :=
  match o with
  | MetricAccessor _data => Ok (Known (MetricAccessor_getattr _data item))
  | MissingValue => Ok (Known MissingValue)
  | Number _ => Raise (TypeError "'float' object is not subscriptable")
  end.

(** [o.item]: what ordinary lookup finds; under a name that it does not find,
    the [__getattr__] of the class, and on a number, which has none, an
    [AttributeError]. *)
Definition getattr (o : object) (item : string) : result (value foreign) :=
  match lookup o item with
  | Some found => Ok found
  | None =>
      match o with
      | MetricAccessor _data => Ok (Known (MetricAccessor_getattr _data item))
      | MissingValue => Ok (Known MissingValue)
      | Number _ =>
          Raise (AttributeError ("'float' object has no attribute '" ++ item ++ "'"))
      end
  end.

(** One access [v.item] or [v[item]]. *)
Definition get (v : value foreign) (a : access) : result (value foreign) :=
  match v, a with
  | Known o, Attribute item => getattr o item
  | Known o, Item item => getitem o item
  | Other v, _ => foreign_get v a
  end.

Fixpoint follow (v : value foreign) (path : list access) : result (value foreign) :=
  match path with
  | [] => Ok v
  | a :: path' => v' ← get v a; follow v' path'
  end.

(** An access that reaches [__getattr__]: an item access, or an attribute
    access under a name that ordinary lookup finds on no object. *)
Definition reaches_hook (a : access) : Prop :=
  match a with
  | Item _ => True
  | Attribute item => forall o, lookup o item = None
  end.

End Accesses.

(** [MissingValue.__bool__] and [MissingValue.__str__] *)
Definition MissingValue_bool : bool := false.
Definition MissingValue_str : string := "".

(** [wrap_metrics]: [data or {}] *)
Definition wrap_metrics (data : option (list (string * json))) : object :=
  MetricAccessor (default [] data).

Module RenderSample.

(** [lt1] equal for the two indices. *)
Definition pbr_tie : json :=
  JDict [("lt1", JDict [("yomiuri333", JNum 0.5); ("topix", JNum 0.5)])].

Definition roe_tie : json :=
  JDict [("median", JDict [("yomiuri333", JNum 4.3); ("topix", JNum 4.3)])].

Definition dy_tie : json :=
  JDict [("mean", JDict [("yomiuri333", JNum 2); ("topix", JNum 2)])].

Definition hhi_tie : json :=
  JDict [("hhi", JDict [("yomiuri333", JNum 0.5); ("topix", JNum 0.5)]);
         ("top10_weight", JDict [("yomiuri333", JNum 1)])].

(** No [hhi] for the benchmark, no [top10_weight] at all. *)
Definition hhi_primary_only : json :=
  JDict [("hhi", JDict [("yomiuri333", JNum 0.5)])].

Definition empty : json := JDict [].

(** One leaf under the key [a]. *)
Definition leaf : list (string * json) := [("a", JNum 0.5)].

(** An interpreter for the examples.  It knows the names that [object], the
    two classes and [float] define; under [real] and [imag] it finds the
    numbers, under another name an object that it calls by the name, and it
    follows no access on such an object. *)
Definition object_names : list string :=
  ["__class__"; "__delattr__"; "__dir__"; "__doc__"; "__eq__"; "__format__";
   "__ge__"; "__getattribute__"; "__getstate__"; "__gt__"; "__hash__";
   "__init__"; "__init_subclass__"; "__le__"; "__lt__"; "__ne__"; "__new__";
   "__reduce__"; "__reduce_ex__"; "__repr__"; "__setattr__"; "__sizeof__";
   "__str__"; "__subclasshook__"].

Definition class_names : list string :=
  object_names ++ ["__dict__"; "__module__"; "__weakref__"; "__getattr__"; "__getitem__"].

Definition float_names : list string :=
  object_names ++
  ["__abs__"; "__add__"; "__bool__"; "__ceil__"; "__divmod__"; "__float__";
   "__floor__"; "__floordiv__"; "__getformat__"; "__getnewargs__"; "__int__";
   "__mod__"; "__mul__"; "__neg__"; "__pos__"; "__pow__"; "__radd__";
   "__rdivmod__"; "__rfloordiv__"; "__rmod__"; "__rmul__"; "__round__";
   "__rpow__"; "__rsub__"; "__rtruediv__"; "__sub__"; "__truediv__";
   "__trunc__"; "as_integer_ratio"; "conjugate"; "fromhex"; "hex";
   "is_integer"].

Definition named (names : list string) (item : string) : option (value string) :=
  if existsb (String.eqb item) names then Some (Other item) else None.

#[global] Instance interpreter : Interpreter := {
  foreign := string;
  lookup o item :=
    match o with
    | MetricAccessor _ => named (class_names ++ ["_data"; "to_dict"]) item
    | MissingValue => named (class_names ++ ["__bool__"]) item
    | Number q =>
        if String.eqb item "real" then Some (Known (Number q))
        else if String.eqb item "imag" then Some (Known (Number 0))
        else named float_names item
    end;
  foreign_get v a :=
    match a with
    | Attribute item =>
        Raise (AttributeError ("'" ++ v ++ "' has no attribute '" ++ item ++ "'"))
    | Item _ => Raise (TypeError ("'" ++ v ++ "' is not subscriptable"))
    end
}.

End RenderSample.

(** The three buckets together. *)
Definition all_bullets (s : summary) : list bullet :=
  strengths s ++ weaknesses s ++ cautions s.

Definition tie_summary : summary :=
  Eval vm_compute in
    match derive_logic_summary RenderSample.pbr_tie RenderSample.roe_tie
            RenderSample.dy_tie RenderSample.hhi_tie with
    | Ok s => s
    | Raise _ => {| strengths := []; weaknesses := []; cautions := [] |}
    end.

Definition primary_only_summary : summary :=
  Eval vm_compute in
    match derive_logic_summary RenderSample.empty RenderSample.empty
            RenderSample.empty RenderSample.hhi_primary_only with
    | Ok s => s
    | Raise _ => {| strengths := []; weaknesses := []; cautions := [] |}
    end.

(** ** Page insights ([src/render/build_site.py]) *)

Inductive direction : Type := Above | Below.

Inductive level : Type := Higher | Lower.

(** The sentences of [build_insights], each with what it prints. *)
Inductive insight : Type :=
| ValueGap (gap : Q) (dir : direction)
| ValueMissing
| ProfitLevel (lvl : level) (y_roe t_roe : Q)
| ProfitMissing
| IncomeLevel (lvl : level) (y_dy t_dy : Q)
| IncomeMissing
| Concentration (y_hhi : Q)
| ConcentrationMissing.

Definition insight_family (i : insight) : family :=
  match i with
  | ValueGap _ _ | ValueMissing => PBR
  | ProfitLevel _ _ _ | ProfitMissing => ROE
  | IncomeLevel _ _ _ | IncomeMissing => DY
  | Concentration _ | ConcentrationMissing => HHI
  end.

(** An insight that puts the primary index at or above the benchmark. *)
Definition favourable (i : insight) : bool :=
  match i with
  | ValueGap _ Above | ProfitLevel Higher _ _ | IncomeLevel Higher _ _ => true
  | _ => false
  end.

(** Lines 47-57. *)
Definition value_insight (pbr : json) : result insight :=
  let y_ratio := safe_get pbr ["lt1"; "yomiuri333"] in
  let t_ratio := safe_get pbr ["lt1"; "topix"] in
  if negb (is_none y_ratio) && negb (is_none t_ratio) then
    y ← number y_ratio; t ← number t_ratio;
    let diff := ((y - t) * 100)%Q in
    Ok (ValueGap (Qabs diff) (if Qle_bool 0 diff then Above else Below))
  else Ok ValueMissing.

(** Lines 59-69. *)
Definition profit_insight (roe : json) : result insight :=
  let y_roe := safe_get roe ["median"; "yomiuri333"] in
  let t_roe := safe_get roe ["median"; "topix"] in
  if negb (is_none y_roe) && negb (is_none t_roe) then
    y ← number y_roe; t ← number t_roe;
    let diff := (y - t)%Q in
    Ok (ProfitLevel (if Qltb diff 0 then Lower else Higher) y t)
  else Ok ProfitMissing.

(** Lines 71-81. *)
Definition income_insight (dy : json) : result insight :=
  let y_dy := safe_get dy ["mean"; "yomiuri333"] in
  let t_dy := safe_get dy ["mean"; "topix"] in
  if negb (is_none y_dy) && negb (is_none t_dy) then
    y ← number y_dy; t ← number t_dy;
    let diff := (y - t)%Q in
    Ok (IncomeLevel (if Qle_bool 0 diff then Higher else Lower) y t)
  else Ok IncomeMissing.

(** Lines 83-90. *)
Definition concentration_insight (hhi : json) : result insight :=
  let y_hhi := safe_get hhi ["hhi"; "yomiuri333"] in
  if negb (is_none y_hhi) then y ← number y_hhi; Ok (Concentration y)
  else Ok ConcentrationMissing.

Definition build_insights (pbr roe dy hhi : json) : result (list insight) :=
  v ← value_insight pbr;
  p ← profit_insight roe;
  i ← income_insight dy;
  c ← concentration_insight hhi;
  Ok [v; p; i; c].

(** Whether the insight, and the narrative, of a family favour the primary
    index. *)
Definition insight_favours (f : family) (insights : list insight) : bool :=
  existsb (fun i => bool_decide (insight_family i = f) && favourable i) insights.

Definition strength_of (f : family) (s : summary) : bool :=
  match bullets_of f (strengths s) with
  | [] => false
  | _ => true
  end.

(** The object that stands for a value of the document in a template. *)
Definition view (v : json) : object :=
  match v with
  | JNull => MissingValue
  | JNum q => Number q
  | JDict d => MetricAccessor d
  end.

(** The key [["index", "code"]] of a financial row. *)
Definition financial_key (f : financial) : option string * string :=
  (f_index f, f_code f).

(** The [pbr] values of one index, and the ratio of those below 1. *)
Definition pbr_series `{Runtime} (dataset : DataFrame) (index_name : string) : list Q :=
  numeric_values (index_group dataset index_name) "pbr".

Definition roe_series `{Runtime} (dataset : DataFrame) (index_name : string) : list Q :=
  numeric_values (index_group dataset index_name) "roe".

(** The value that [quantile] reads off a sorted series at a position. *)
Definition interpolate (sorted : list Q) (position : Q) : Q :=
  let lower := nth (Z.to_nat (Qfloor position)) sorted 0%Q in
  let upper := nth (Z.to_nat (Qceiling position)) sorted 0%Q in
  (lower + (position - inject_Z (Qfloor position)) * (upper - lower))%Q.

(** What one turn of the loop of [compute_roe_stats] leaves under a quantile
    key. *)
Definition quantile_value `{Runtime} (q : Q) (g : DataFrame) : option Q :=
  match numeric_values g "roe" with
  | [] => None
  | series => Some (quantile series q)
  end.



(** ** Writing and reading the table
    ([write_output] of [src/ingest/csv_to_canonical.py], [load_dataframe] of
    [src/utils/io.py])

    Both are modelled on the document: the one handed to [yaml.safe_dump] and
    the one [yaml.safe_load] returns. *)

(** [dataset.to_dict(orient="records")]: one mapping per row, with every
    column. *)
Definition to_dict (dataset : DataFrame) : list dict :=
  (fun row => (fun label => (label, cell row label)) <$> columns dataset)
    <$> rows dataset.

(** The [payload] of [write_output] for a YAML path, [generated_at] being the
    time stamp. *)
Definition write_output (generated_at : string) (dataset : DataFrame) : yaml :=
  YDict [("generated_at", YStr generated_at);
         ("records", YList (YDict <$> to_dict dataset))].

(** The labels in the order in which they are first met. *)
Fixpoint first_seen (seen labels : list string) : list string :=
  match labels with
  | [] => []
  | label :: rest =>
      if bool_decide (label ∈ seen) then first_seen seen rest
      else label :: first_seen (label :: seen) rest
  end.

(** [pd.DataFrame(records)]: the columns are the keys of the records. *)
Definition frame_of_records (records : list dict) : DataFrame :=
  {| columns := first_seen [] (records ≫= fun record => record.*1);
     rows := (fun record : dict => list_to_map record) <$> records |}.

(** The YAML branch of [load_dataframe], from the parsed [content] on.  The
    message of the error ends with the path of the file. *)
Definition load_dataframe (content : yaml) : result DataFrame :=
  match content with
  | YNull => Ok (frame_of_records [])
  | YDict d =>
      let raw_records :=
        match dict_get d "records" with
        | Some (YList records) => records
        | _ =>
            match flatten_grouped d with
            | [] => [content]
            | grouped => grouped
            end
        end in
      Ok (frame_of_records (omap as_dict raw_records))
  | YList entries => Ok (frame_of_records (omap as_dict entries))
  | _ => Raise (ValueError "Unsupported YAML structure")
  end.

(** ** From a module's metrics to the page
    ([main] of the statistics modules, [dump_json], [load_metrics], [main] of
    [src/render/build_site.py])

    [dump_json(metrics, path)] followed by [load_metrics(path)]: the metrics
    as the document the renderer reads, the keys of every mapping in the order
    of [sort_keys=True]. *)

Definition key_leb (a b : string * json) : bool := String.leb a.1 b.1.

Definition entries {A : Type} (leaf : A -> json) (m : gmap string A) : json :=
  JDict (sort_values key_leb ((fun kv => (kv.1, leaf kv.2)) <$> map_to_list m)).

Definition count_leaf (n : nat) : json := JNum (Qnat n).

Definition float_leaf (x : option Q) : json := from_option JNum JNull x.

Definition pbr_document (metrics : pbr_metrics) : json :=
  JDict [("count", entries count_leaf (pbr_count metrics));
         ("lt1", entries float_leaf (pbr_lt1 metrics));
         ("mean", entries float_leaf (pbr_mean metrics));
         ("median", entries float_leaf (pbr_median metrics))].

Definition roe_document (metrics : roe_metrics) : json :=
  JDict [("count", entries count_leaf (roe_count metrics));
         ("median", entries float_leaf (roe_median metrics));
         ("quantiles", entries (entries float_leaf) (roe_quantiles metrics))].

Definition hhi_document (metrics : concentration_metrics) : json :=
  JDict [("constituents", entries count_leaf (constituents metrics));
         ("hhi", entries JNum (hhi metrics));
         ("top10_weight", entries JNum (top10_weight metrics))].

(** ** Codes *)

(** A text that does not begin with a white-space character, one that does not
    end with one, and one that has none at either end. *)
Definition starts_clean (s : string) : Prop := leading_space false s = false.

Definition ends_clean (s : string) : Prop :=
  leading_space true (String.rev s) = false.

Definition stripped (s : string) : Prop := starts_clean s /\ ends_clean s.

(** ** Template filters ([format_number], [format_percent])

    The value is what an access on the accessor returns.  The text of a number
    is not modelled: a rendering holds the number handed to the format, the
    digits, and whether the percent sign follows. *)

Inductive rendering : Type :=
| NotAvailable
| Verbatim (value : object)
| Fixed (number : Q) (digits : nat)
| Percent (number : Q) (digits : nat).

Definition is_missing (value : object) : bool :=
  match value with
  | MissingValue => true
  | _ => false
  end.

(** [float(value)]: an accessor has no conversion. *)
Definition float (value : object) : result Q :=
  match value with
  | Number q => Ok q
  | _ => Raise (TypeError "float() argument must be a string or a real number")
  end.

Definition format_number (value : object) (digits : nat) : rendering :=
  if is_missing value then NotAvailable
  else
    match float value with
    | Ok number => Fixed number digits
    | Raise _ => Verbatim value
    end.

Definition format_percent (value : object) (digits : nat) : rendering :=
  if is_missing value then NotAvailable
  else
    match float value with
    | Ok number =>
        let number := if Qle_bool number 1 then (number * 100)%Q else number in
        Percent number digits
    | Raise _ => Verbatim value
    end.

(** ** Inputs of the instances of the further properties *)

Module FurtherSample.

(** The insights of the documents of [RenderSample] in which the indices tie. *)
Definition tie_insights : list insight :=
  Eval vm_compute in
    match build_insights RenderSample.pbr_tie RenderSample.roe_tie
            RenderSample.dy_tie RenderSample.hhi_tie with
    | Ok insights => insights
    | Raise _ => []
    end.

(** The rows of [Sample.undated_then_dated]. *)
Definition records_df : list financial :=
  Eval vm_compute in
    match _normalize_financials (H := Fixture.runtime) Sample.undated_then_dated with
    | Ok fs => fs
    | Raise _ => []
    end.

(** The constituents of [Sample.weighted_constituent]: the first has records
    in [records_df], the second has none. *)
Definition matched : constituent :=
  {| c_index := "yomiuri333"; c_code := "1001"; c_name := YStr "";
     c_sector := YStr "Unknown"; c_weight := YNum 0.5 |}.

Definition unmatched : constituent :=
  {| c_index := "yomiuri333"; c_code := "2002"; c_name := YStr "";
     c_sector := YStr "Unknown"; c_weight := YNull |}.

(** Financial records grouped by index name, the second with an index of its
    own. *)
Definition grouped : dict :=
  [("topix",
    YList [YDict [("code", YStr "1001"); ("pbr", YNum 1.4)];
           YDict [("index", YStr "yomiuri333"); ("code", YStr "1001");
                  ("pbr", YNum 0.8)]])].

Definition generated_at : string := "2024-01-01T00:00:00+00:00".

End FurtherSample.

(** * Properties *)

(** ** Comparisons that order *)

Section ComparatorFacts.
Context {A : Type} (cmp : A -> A -> comparison) `{!Comparator cmp}.

Lemma cmp_eq_sym x y : cmp x y = Eq -> cmp y x = Eq.
Proof. intros E. rewrite cmp_opp, E. reflexivity. Qed.

Lemma cmp_eq_r x y z : cmp y z = Eq -> cmp x y = cmp x z.
Proof.
  intros E. apply cmp_eq_sym in E.
  rewrite (cmp_opp y x), (cmp_opp z x), (cmp_eq_l z y x E). reflexivity.
Qed.

Lemma cmp_refl x : cmp x x = Eq.
Proof. pose proof (cmp_opp x x) as E. destruct (cmp x x); simpl in E; congruence. Qed.

Lemma not_gt_total x y : not_gt (cmp x y) = true \/ not_gt (cmp y x) = true.
Proof. rewrite (cmp_opp x y). destruct (cmp x y); simpl; auto. Qed.

Lemma not_gt_trans x y z :
  not_gt (cmp x y) = true -> not_gt (cmp y z) = true -> not_gt (cmp x z) = true.
Proof.
  destruct (cmp x y) eqn:Exy; [| |discriminate]; intros _.
  - rewrite (cmp_eq_l x y z Exy). auto.
  - destruct (cmp y z) eqn:Eyz; [| |discriminate]; intros _.
    + rewrite <- (cmp_eq_r x y z Eyz), Exy. reflexivity.
    + rewrite (cmp_lt_trans x y z Exy Eyz). reflexivity.
Qed.

End ComparatorFacts.

#[global] Instance Comparator_on {A B} (f : A -> B) (cmp : B -> B -> comparison)
  `{!Comparator cmp} : Comparator (fun a b => cmp (f a) (f b)).
Proof.
  split; intros.
  - apply cmp_opp.
  - eapply cmp_lt_trans; eauto.
  - apply (cmp_eq_l (cmp := cmp)); assumption.
Qed.

#[global] Instance Comparator_lex {A} (c1 c2 : A -> A -> comparison)
  `{!Comparator c1, !Comparator c2} : Comparator (fun a b => lex (c1 a b) (c2 a b)).
Proof.
  split.
  - intros x y. rewrite (cmp_opp (cmp := c1) x y), (cmp_opp (cmp := c2) x y).
    destruct (c1 x y); reflexivity.
  - intros x y z. unfold lex.
    destruct (c1 x y) eqn:E1; [|intros _|discriminate].
    + rewrite (cmp_eq_l (cmp := c1) x y z E1).
      destruct (c1 y z) eqn:E2; [|auto|discriminate].
      apply cmp_lt_trans.
    + destruct (c1 y z) eqn:E2; [|intros _|discriminate].
      * rewrite <- (cmp_eq_r c1 x y z E2), E1. auto.
      * rewrite (cmp_lt_trans (cmp := c1) x y z E1 E2). auto.
  - intros x y z. unfold lex. destruct (c1 x y) eqn:E1; try discriminate.
    intros E2. rewrite (cmp_eq_l (cmp := c1) x y z E1), (cmp_eq_l (cmp := c2) x y z E2).
    reflexivity.
Qed.

#[global] Instance Comparator_na_last {A} (cmp : A -> A -> comparison)
  `{!Comparator cmp} : Comparator (compare_na_last cmp).
Proof.
  split.
  - intros [x|] [y|]; simpl; auto using cmp_opp.
  - intros [x|] [y|] [z|]; simpl; try discriminate; auto. apply cmp_lt_trans.
  - intros [x|] [y|] [z|]; simpl; try discriminate; auto.
    apply (cmp_eq_l (cmp := cmp)).
Qed.

#[global] Instance Comparator_Z : Comparator Z.compare.
Proof.
  split.
  - intros x y. apply Z.compare_antisym.
  - intros x y z. rewrite !Z.compare_lt_iff. lia.
  - intros x y z E. apply Z.compare_eq in E. subst. reflexivity.
Qed.

Lemma ascii_compare_lt_trans a b c :
  Ascii.compare a b = Lt -> Ascii.compare b c = Lt -> Ascii.compare a c = Lt.
Proof. unfold Ascii.compare. rewrite !N.compare_lt_iff. lia. Qed.

Lemma string_compare_lt_trans s1 : forall s2 s3,
  String.compare s1 s2 = Lt -> String.compare s2 s3 = Lt -> String.compare s1 s3 = Lt.
Proof.
  induction s1 as [|a1 s1 IH]; intros [|a2 s2] [|a3 s3]; simpl; try discriminate; auto.
  destruct (Ascii.compare a1 a2) eqn:E12; try discriminate.
  - apply Ascii.compare_eq_iff in E12. subst a2.
    destruct (Ascii.compare a1 a3); try discriminate; auto. apply IH.
  - intros _. destruct (Ascii.compare a2 a3) eqn:E23; try discriminate.
    + apply Ascii.compare_eq_iff in E23. subst a3. rewrite E12. auto.
    + rewrite (ascii_compare_lt_trans _ _ _ E12 E23). auto.
Qed.

#[global] Instance Comparator_string : Comparator String.compare.
Proof.
  split.
  - intros x y. apply String.compare_antisym.
  - apply string_compare_lt_trans.
  - intros x y z E. apply String.compare_eq_iff in E. subst. reflexivity.
Qed.

(** ** The stable sort *)

Section SortingFacts.
Context {A : Type} (leb : A -> A -> bool).
Hypothesis leb_total : forall x y, leb x y = true \/ leb y x = true.
Hypothesis leb_trans : forall x y z, leb x y = true -> leb y z = true -> leb x z = true.

Lemma insert_sorted_Permutation x l : insert_sorted leb x l ≡ₚ x :: l.
Proof.
  induction l as [|y l IH]; simpl; [reflexivity|].
  destruct (leb x y); [reflexivity|].
  rewrite IH. apply perm_swap.
Qed.

Lemma sort_values_Permutation l : sort_values leb l ≡ₚ l.
Proof.
  induction l as [|x l IH]; simpl; [reflexivity|].
  rewrite insert_sorted_Permutation, IH. reflexivity.
Qed.

Lemma insert_sorted_StronglySorted x l :
  StronglySorted (fun a b => leb a b = true) l ->
  StronglySorted (fun a b => leb a b = true) (insert_sorted leb x l).
Proof.
  induction 1 as [|y l Hl IH Hy]; simpl; [repeat constructor|].
  destruct (leb x y) eqn:E.
  - constructor; [constructor; assumption|].
    constructor; [exact E|].
    eapply Forall_impl; [exact Hy|]. intros z Hz. exact (leb_trans _ _ _ E Hz).
  - constructor; [exact IH|].
    rewrite insert_sorted_Permutation. constructor; [|exact Hy].
    destruct (leb_total x y) as [E'|E']; [congruence|exact E'].
Qed.

Lemma sort_values_StronglySorted l :
  StronglySorted (fun a b => leb a b = true) (sort_values leb l).
Proof.
  induction l as [|x l IH]; simpl; [constructor|].
  apply insert_sorted_StronglySorted, IH.
Qed.

End SortingFacts.

(** ** Deduplication and the merge *)

Section DropDuplicates.
Context {A : Type} (same : A -> A -> bool) (p : A -> bool).
Hypothesis p_same : forall x y, same x y = true -> p x = p y.
Hypothesis same_p : forall x y, p x = true -> p y = true -> same x y = true.

Lemma last_cons_nonempty (x : A) (l : list A) : l <> [] -> last (x :: l) = last l.
Proof. destruct l; [congruence|reflexivity]. Qed.

(** Of the rows that [p] selects, which all carry one key, exactly the last
    one survives. *)
Lemma filter_drop_duplicates_last l :
  List.filter p (drop_duplicates_last same l) = option_list (last (List.filter p l)).
Proof.
  induction l as [|x l IH]; [reflexivity|].
  cbn [drop_duplicates_last List.filter].
  destruct (existsb (same x) l) eqn:Ex.
  - rewrite IH. destruct (p x) eqn:Px; [|reflexivity].
    rewrite last_cons_nonempty; [reflexivity|].
    apply existsb_exists in Ex as (y & Hy & Sxy).
    intros E. assert (Hin : In y (List.filter p l)).
    { apply filter_In. split; [exact Hy|]. rewrite <- (p_same x y Sxy). exact Px. }
    rewrite E in Hin. exact Hin.
  - cbn [List.filter]. destruct (p x) eqn:Px; [|exact IH].
    assert (E : List.filter p l = []).
    { destruct (List.filter p l) as [|y l'] eqn:F; [reflexivity|].
      assert (Hin : In y (List.filter p l)) by (rewrite F; left; reflexivity).
      apply filter_In in Hin as [Hy Py].
      assert (existsb (same x) l = true); [|congruence].
      apply existsb_exists. exists y. auto. }
    rewrite IH, E. reflexivity.
Qed.

Lemma drop_duplicates_last_nonempty l : l <> [] -> drop_duplicates_last same l <> [].
Proof.
  induction l as [|x l IH]; [congruence|]. intros _. simpl.
  destruct (existsb (same x) l) eqn:Ex; [|discriminate].
  apply IH. intros ->. discriminate.
Qed.

End DropDuplicates.

Section BuilderFacts.
Context `{Runtime}.

#[local] Instance Comparator_financial : Comparator financial_compare.
Proof.
  unfold financial_compare.
  exact (Comparator_lex
    (fun a b => compare_na_last String.compare (f_index a) (f_index b))
    (fun a b => lex (String.compare (f_code a) (f_code b))
                  (compare_na_last Z.compare (f_date a) (f_date b)))).
Qed.

#[local] Instance Comparator_canonical : Comparator canonical_compare.
Proof.
  unfold canonical_compare.
  exact (Comparator_lex
    (fun a b => String.compare (r_index a) (r_index b))
    (fun a b => String.compare (r_code a) (r_code b))).
Qed.

Lemma joins_same_pair c x y : same_pair x y = true -> joins c x = joins c y.
Proof.
  unfold same_pair, joins. intros E.
  apply andb_true_iff in E as [Ei Ec].
  apply bool_decide_eq_true in Ei. apply String.eqb_eq in Ec.
  rewrite Ei, Ec. reflexivity.
Qed.

Lemma same_pair_joins c x y : joins c x = true -> joins c y = true -> same_pair x y = true.
Proof.
  unfold same_pair, joins. intros Ex Ey.
  apply andb_true_iff in Ex as [Exi Exc]. apply andb_true_iff in Ey as [Eyi Eyc].
  apply bool_decide_eq_true in Exi, Eyi. apply String.eqb_eq in Exc, Eyc.
  apply andb_true_iff. split.
  - apply bool_decide_eq_true. congruence.
  - apply String.eqb_eq. congruence.
Qed.

Lemma sort_values_nonempty {A} (leb : A -> A -> bool) l : l <> [] -> sort_values leb l <> [].
Proof.
  intros Hl E. apply Hl. apply Permutation_nil.
  rewrite <- E. apply sort_values_Permutation.
Qed.

Lemma deduplicate_nonempty fs : fs <> [] -> deduplicate fs <> [].
Proof.
  intros Hfs. unfold deduplicate. destruct fs as [|f fs]; [congruence|].
  apply drop_duplicates_last_nonempty, sort_values_nonempty. discriminate.
Qed.

(** After deduplication a constituent joins its [latest] record and no other. *)
Lemma filter_joins_deduplicate fs c :
  List.filter (joins c) (deduplicate fs) = option_list (latest fs c).
Proof.
  unfold deduplicate, latest. destruct fs as [|f fs]; [reflexivity|].
  apply filter_drop_duplicates_last.
  - apply joins_same_pair.
  - apply same_pair_joins.
Qed.

Lemma merge_left_deduplicate cs fs :
  fs <> [] ->
  merge_left cs (deduplicate fs) = Ok ((fun c => (c, latest fs c)) <$> cs).
Proof.
  intros Hfs. unfold merge_left.
  destruct (deduplicate fs) as [|d ds] eqn:D.
  { exfalso. exact (deduplicate_nonempty fs Hfs D). }
  rewrite <- D. f_equal.
  induction cs as [|c cs IH]; [reflexivity|].
  cbn [flat_map fmap list_fmap]. rewrite filter_joins_deduplicate.
  change (list_fmap _ _ ?f cs) with (f <$> cs). rewrite <- IH.
  destruct (latest fs c); reflexivity.
Qed.

(** The canonical table is the sorted list of one row per constituent record. *)
Lemma build_canonical_rows constituents_raw financials_raw cs fs :
  _normalize_constituents constituents_raw = Ok cs ->
  _normalize_financials financials_raw = Ok fs ->
  fs <> [] ->
  build_canonical constituents_raw financials_raw =
    Ok (sort_values canonical_leb ((fun c => canonical_row (c, latest fs c)) <$> cs)).
Proof.
  intros Ec Ef Hfs. unfold build_canonical. rewrite Ec, Ef. cbn [mbind result_bind].
  rewrite (merge_left_deduplicate cs fs Hfs). cbn [mbind result_bind].
  rewrite <- list_fmap_compose. reflexivity.
Qed.

Lemma build_canonical_Ok constituents_raw financials_raw rows :
  build_canonical constituents_raw financials_raw = Ok rows ->
  exists cs fs,
    _normalize_constituents constituents_raw = Ok cs
    /\ _normalize_financials financials_raw = Ok fs
    /\ fs <> []
    /\ rows = sort_values canonical_leb ((fun c => canonical_row (c, latest fs c)) <$> cs).
Proof.
  intros E. unfold build_canonical in E.
  destruct (_normalize_constituents constituents_raw) as [cs|] eqn:Ec; [|discriminate].
  destruct (_normalize_financials financials_raw) as [fs|] eqn:Ef; [|discriminate].
  cbn [mbind result_bind] in E.
  destruct fs as [|f fs]; [discriminate|].
  exists cs, (f :: fs). repeat split; [discriminate|].
  pose proof (build_canonical_rows _ _ _ _ Ec Ef) as R.
  unfold build_canonical in R. rewrite Ec, Ef in R. cbn [mbind result_bind] in R.
  rewrite R in E by discriminate. congruence.
Qed.

Lemma canonical_leb_key_le a b : canonical_leb a b = true -> key_le a b.
Proof.
  unfold canonical_leb, canonical_compare, key_le, String.ltb, String.leb, lex.
  destruct (String.compare (r_index a) (r_index b)) eqn:Ei; try discriminate; auto.
  apply String.compare_eq_iff in Ei. intros E. right. split; [exact Ei|].
  destruct (String.compare (r_code a) (r_code b)); auto; discriminate.
Qed.

Lemma sort_values_canonical_sorted rows :
  StronglySorted key_le (sort_values canonical_leb rows).
Proof.
  pose proof (sort_values_StronglySorted canonical_leb
    (not_gt_total canonical_compare) (not_gt_trans canonical_compare) rows) as S.
  induction S as [|x l Sl IH Hx]; constructor; [exact IH|].
  eapply Forall_impl; [exact Hx|]. intros y. apply canonical_leb_key_le.
Qed.

End BuilderFacts.

(** ** The canonical builder: claims *)

Section BuilderClaims.
Context `{Runtime}.

Lemma StronglySorted_last {A} (R : A -> A -> Prop) (l : list A) (x : A) :
  (forall y, R y y) -> StronglySorted R l -> last l = Some x -> Forall (fun y => R y x) l.
Proof.
  intros Rrefl S. induction S as [|y l Sl IH Hy]; [constructor|].
  destruct l as [|z l].
  - simpl. intros [= ->]. repeat constructor. apply Rrefl.
  - intros L. change (last (z :: l) = Some x) in L. constructor; [|exact (IH L)].
    rewrite Forall_forall in Hy. apply Hy. apply last_Some_elem_of. exact L.
Qed.

Lemma StronglySorted_filter {A} (R : A -> A -> Prop) (p : A -> bool) (l : list A) :
  StronglySorted R l -> StronglySorted R (List.filter p l).
Proof.
  induction 1 as [|y l Sl IH Hy]; simpl; [constructor|].
  destruct (p y); [|exact IH]. constructor; [exact IH|].
  rewrite Forall_forall in *. intros z Hz. apply Hy.
  apply list_elem_of_In in Hz. apply filter_In in Hz as [Hz _].
  apply list_elem_of_In. exact Hz.
Qed.

(** What deduplication keeps for a constituent: a record of its key whose
    date is greatest in the order that puts a missing date last. *)
Lemma latest_greatest_date fs c f :
  latest fs c = Some f ->
  f ∈ fs /\ joins c f = true
  /\ forall g, g ∈ fs -> joins c g = true ->
       not_gt (compare_na_last Z.compare (f_date g) (f_date f)) = true.
Proof.
  unfold latest. intros L.
  pose proof (sort_values_StronglySorted financial_leb
    (not_gt_total financial_compare) (not_gt_trans financial_compare) fs) as S.
  apply (StronglySorted_filter _ (joins c)) in S.
  assert (Rrefl : forall y : financial, financial_leb y y = true).
  { intros y. unfold financial_leb. rewrite (cmp_refl financial_compare). reflexivity. }
  pose proof (StronglySorted_last _ _ _ Rrefl S L) as Hall.
  assert (Hf : In f (List.filter (joins c) (sort_values financial_leb fs))).
  { apply list_elem_of_In, last_Some_elem_of, L. }
  apply filter_In in Hf as [Hf Jf].
  split; [|split; [exact Jf|]].
  - rewrite <- (sort_values_Permutation financial_leb fs). apply list_elem_of_In, Hf.
  - intros g Hg Jg. rewrite Forall_forall in Hall.
    assert (Hg' : g ∈ List.filter (joins c) (sort_values financial_leb fs)).
    { apply list_elem_of_In, filter_In. split; [|exact Jg].
      apply list_elem_of_In. rewrite (sort_values_Permutation financial_leb fs). exact Hg. }
    specialize (Hall g Hg'). unfold financial_leb, financial_compare in Hall.
    unfold joins in Jf, Jg.
    apply andb_true_iff in Jf as [Jfi Jfc]. apply andb_true_iff in Jg as [Jgi Jgc].
    apply bool_decide_eq_true in Jfi, Jgi. apply String.eqb_eq in Jfc, Jgc.
    rewrite Jfi, Jgi, Jfc, Jgc in Hall. simpl in Hall.
    rewrite !(cmp_refl String.compare) in Hall. exact Hall.
Qed.

(** A record without a date is kept in preference to every dated one. *)
Lemma latest_prefers_undated fs c f g :
  latest fs c = Some f -> g ∈ fs -> joins c g = true -> f_date g = None -> f_date f = None.
Proof.
  intros L Hg Jg Dg. destruct (latest_greatest_date fs c f L) as (_ & _ & Hmax).
  specialize (Hmax g Hg Jg). rewrite Dg in Hmax.
  destruct (f_date f); [discriminate|reflexivity].
Qed.

(** C4 (as amended): the canonical table has exactly one row per constituent
    record, with that record's (index, code), and is sorted by (index, code);
    so its (index, code) pairs are unique whenever those of the constituent
    records are. *)
Theorem build_canonical_one_row_per_constituent constituents_raw financials_raw rows :
  build_canonical constituents_raw financials_raw = Ok rows ->
  exists cs,
    _normalize_constituents constituents_raw = Ok cs
    /\ canonical_key <$> rows ≡ₚ constituent_key <$> cs
    /\ StronglySorted key_le rows
    /\ (NoDup (constituent_key <$> cs) -> NoDup (canonical_key <$> rows)).
Proof.
  intros E. apply build_canonical_Ok in E as (cs & fs & Ec & Ef & Hfs & ->).
  exists cs. split; [exact Ec|].
  assert (P : canonical_key <$>
                sort_values canonical_leb ((fun c => canonical_row (c, latest fs c)) <$> cs)
              ≡ₚ constituent_key <$> cs).
  { rewrite (sort_values_Permutation canonical_leb), <- list_fmap_compose.
    reflexivity. }
  split; [exact P|]. split; [apply sort_values_canonical_sorted|].
  intros N. rewrite P. exact N.
Qed.


End BuilderClaims.

(** C4, an instance: the table built from the documents of the test suite. *)
Lemma build_canonical_one_row_per_constituent_sample :
  exists cs,
    _normalize_constituents (H := Fixture.runtime) Sample.constituents = Ok cs
    /\ canonical_key <$> Sample.canonical_rows ≡ₚ constituent_key <$> cs
    /\ StronglySorted key_le Sample.canonical_rows
    /\ (NoDup (constituent_key <$> cs) -> NoDup (canonical_key <$> Sample.canonical_rows)).
Proof.
  apply (build_canonical_one_row_per_constituent (H := Fixture.runtime)
           Sample.constituents Sample.financials Sample.canonical_rows).
  vm_compute. reflexivity.
Defined.

(** C4, as stated, fails: a code listed twice among the constituents gives two
    canonical rows with one (index, code). *)
Lemma build_canonical_repeats_listed_twice :
  exists rows,
    build_canonical (H := Fixture.runtime) Sample.listed_twice Sample.financials = Ok rows
    /\ canonical_key <$> rows = [("yomiuri333", "1001"); ("yomiuri333", "1001")].
Proof. eexists. split; vm_compute; reflexivity. Qed.

(** C1 at the failing input: of an undated and a dated record of one
    (index, code), the undated one supplies the canonical row. *)
Theorem build_canonical_keeps_undated_record :
  exists row,
    build_canonical (H := Fixture.runtime) Sample.one_constituent Sample.undated_then_dated
      = Ok [row]
    /\ r_date row = None /\ r_pbr row = Some 1.5%Q.
Proof. eexists. repeat split; vm_compute; reflexivity. Qed.



(** ** The statistics modules *)

Lemma group_keys_elem_of (labels : list string) (label : string) :
  label ∈ group_keys labels <-> label ∈ labels.
Proof.
  unfold group_keys. rewrite (sort_values_Permutation String.leb).
  apply elem_of_remove_dups.
Qed.

Lemma group_keys_Permutation (labels : list string) :
  group_keys labels ≡ₚ remove_dups labels.
Proof. apply sort_values_Permutation. Qed.

(** A loop that assigns [field[key] = value group] for every group leaves, under
    a key, the value of that key's group. *)
Lemma foldl_assign_lookup {S G V : Type} (field : S -> gmap string V)
    (step : S -> string * G -> S) (value : G -> V) (group : string -> G) :
  (forall s k, field (step s (k, group k)) = <[k := value (group k)]> (field s)) ->
  forall (keys : list string) (s : S) (i : string),
    field (foldl step s ((fun k => (k, group k)) <$> keys)) !! i =
      if bool_decide (i ∈ keys) then Some (value (group i)) else field s !! i.
Proof.
  intros Hstep keys. induction keys as [|k keys IH]; intros s i.
  - reflexivity.
  - cbn [fmap list_fmap foldl]. change (list_fmap _ _ ?f keys) with (f <$> keys).
    rewrite IH, Hstep. destruct (decide (i ∈ keys)) as [Hin|Hin].
    + rewrite !bool_decide_eq_true_2; [reflexivity| |exact Hin]. right. exact Hin.
    + rewrite (bool_decide_eq_false_2 _ Hin). destruct (decide (i = k)) as [->|Hne].
      * rewrite lookup_insert_eq, bool_decide_eq_true_2; [reflexivity|left].
      * rewrite lookup_insert_ne by congruence.
        rewrite bool_decide_eq_false_2; [reflexivity|].
        intros Hik. apply elem_of_cons in Hik as [?|?]; contradiction.
Qed.

Lemma index_group_rows_nil dataset i :
  rows (index_group dataset i) = [] <-> i ∉ omap index_of (rows dataset).
Proof.
  unfold index_group. cbn [rows]. split.
  - intros E Hin. apply list_elem_of_omap in Hin as (row & Hrow & Hi).
    assert (Hf : row ∈ filter (fun row => index_of row = Some i) (rows dataset)).
    { apply list_elem_of_filter. auto. }
    rewrite E in Hf. exact (not_elem_of_nil _ Hf).
  - intros Hnot. destruct (filter _ (rows dataset)) as [|row l] eqn:F; [reflexivity|].
    exfalso. apply Hnot.
    assert (Hf : row ∈ filter (fun row => index_of row = Some i) (rows dataset)).
    { rewrite F. left. }
    apply list_elem_of_filter in Hf as [Hi Hrow].
    apply list_elem_of_omap. exists row. auto.
Qed.

(** The value a loop over [groupby_index] leaves under an index name. *)
Lemma group_lookup {S V : Type} (field : S -> gmap string V)
    (step : S -> string * DataFrame -> S) (value : DataFrame -> V) dataset :
  (forall s k g, field (step s (k, g)) = <[k := value g]> (field s)) ->
  forall (s : S) (i : string),
    field (foldl step s (groupby_index dataset)) !! i =
      match rows (index_group dataset i) with
      | [] => field s !! i
      | _ => Some (value (index_group dataset i))
      end.
Proof.
  intros Hstep s i. unfold groupby_index.
  rewrite (foldl_assign_lookup field step value (index_group dataset)
             (fun s k => Hstep s k _)).
  destruct (decide (i ∈ omap index_of (rows dataset))) as [Hin|Hin].
  - rewrite bool_decide_eq_true_2 by (apply group_keys_elem_of; exact Hin).
    destruct (rows (index_group dataset i)) eqn:E; [|reflexivity].
    apply index_group_rows_nil in E. contradiction.
  - rewrite bool_decide_eq_false_2 by (rewrite group_keys_elem_of; exact Hin).
    apply index_group_rows_nil in Hin. rewrite Hin. reflexivity.
Qed.

Lemma length_omap_filter {A B} (f : A -> option B) (l : list A) :
  List.length (omap f l) = List.length (filter (fun x => is_Some (f x)) l).
Proof.
  induction l as [|x l IH]; [reflexivity|]. cbn [omap list_omap].
  rewrite filter_cons. destruct (f x) eqn:E.
  - rewrite decide_True by (simpl; rewrite ?E; eauto). simpl. f_equal. exact IH.
  - rewrite decide_False by (simpl; rewrite ?E; apply is_Some_None). exact IH.
Qed.

Section StatisticsFacts.
Context `{Runtime}.

Lemma pbr_step_count metrics k g :
  pbr_count (pbr_step metrics (k, g)) = <[k := List.length (numeric_values g "pbr")]> (pbr_count metrics).
Proof. unfold pbr_step. destruct (List.length (numeric_values g "pbr")); reflexivity. Qed.

Lemma roe_step_count metrics k g :
  roe_count (roe_step metrics (k, g)) = <[k := List.length (numeric_values g "roe")]> (roe_count metrics).
Proof. unfold roe_step. destruct (List.length (numeric_values g "roe")); reflexivity. Qed.

Lemma _resolve_weights_Ok subset :
  has_column subset "weight" = true -> _resolve_weights subset = Ok (resolved subset).
Proof.
  unfold resolved, _resolve_weights. intros ->. cbn [negb].
  destruct (Qle_bool _ 0); reflexivity.
Qed.

Lemma _resolve_weights_not_value_error subset :
  is_value_error (_resolve_weights subset) = false.
Proof.
  unfold _resolve_weights. destruct (negb _); [reflexivity|].
  destruct (Qle_bool _ 0); reflexivity.
Qed.

Lemma concentration_loop_Ok groups : forall metrics,
  Forall (fun g : string * DataFrame => has_column g.2 "weight" = true) groups ->
  concentration_loop metrics groups = Ok (foldl concentration_assign metrics groups).
Proof.
  induction groups as [|[k g] groups IH]; intros metrics Hall; [reflexivity|].
  apply Forall_cons in Hall as [Hg Hall]. cbn [concentration_loop concentration_step].
  rewrite (_resolve_weights_Ok g Hg). cbn [mbind result_bind].
  rewrite (IH _ Hall). reflexivity.
Qed.

Lemma concentration_loop_not_value_error groups : forall metrics,
  is_value_error (concentration_loop metrics groups) = false.
Proof.
  induction groups as [|[k g] groups IH]; intros metrics; [reflexivity|].
  cbn [concentration_loop concentration_step].
  pose proof (_resolve_weights_not_value_error g) as E.
  destruct (_resolve_weights g) as [ws|e]; cbn [mbind result_bind].
  - apply IH.
  - exact E.
Qed.

Lemma groupby_index_columns dataset label :
  has_column dataset label = true ->
  Forall (fun g : string * DataFrame => has_column g.2 label = true) (groupby_index dataset).
Proof.
  intros Hc. unfold groupby_index. apply Forall_fmap, Forall_forall.
  intros k _. exact Hc.
Qed.

Lemma compute_concentration_metrics_Ok dataset :
  has_column dataset "index" = true ->
  has_column dataset "sector" = true ->
  has_column dataset "weight" = true ->
  compute_concentration_metrics dataset =
    Ok (foldl concentration_assign {| hhi := ∅; top10_weight := ∅; constituents := ∅ |}
          (groupby_index dataset)).
Proof.
  intros Hi Hs Hw. unfold compute_concentration_metrics. rewrite Hi, Hs. cbn [negb].
  apply concentration_loop_Ok, groupby_index_columns, Hw.
Qed.

End StatisticsFacts.

(** *** Sums of rationals *)




Lemma Qnat_S (n : nat) : (Qnat (S n) == 1 + Qnat n)%Q.
Proof. unfold Qnat. rewrite Nat2Z.inj_succ, <- Z.add_1_l, inject_Z_plus. reflexivity. Qed.


Lemma Qnat_pos (n : nat) : (0 < n)%nat -> (0 < Qnat n)%Q.
Proof.
  intros Hn. unfold Qnat, Qlt. simpl. lia.
Qed.

(** *** The sums of a [groupby] *)





(** *** Statistics: claims *)

Section StatisticsClaims.
Context `{Runtime}.

Lemma to_numeric_numeric_cell x : to_numeric (numeric_cell x) = x.
Proof. destruct x; reflexivity. Qed.

Lemma index_group_canonical_frame table i :
  rows (index_group (canonical_frame table) i) = canonical_cells <$> rows_of_index table i.
Proof.
  unfold index_group, rows_of_index, canonical_frame. cbn [rows].
  induction table as [|r table IH]; [reflexivity|].
  cbn [fmap list_fmap]. rewrite !filter_cons.
  change (list_fmap _ _ ?f table) with (f <$> table).
  assert (E : index_of (canonical_cells r) = Some (r_index r)) by reflexivity.
  destruct (decide (r_index r = i)) as [Hi|Hi].
  - rewrite decide_True by (rewrite E; congruence).
    cbn [fmap list_fmap]. f_equal. exact IH.
  - rewrite decide_False by (rewrite E; congruence). exact IH.
Qed.

Lemma numeric_values_canonical_frame table i label (column : canonical -> option Q) :
  (forall r, cell (canonical_cells r) label = numeric_cell (column r)) ->
  numeric_values (index_group (canonical_frame table) i) label
    = omap column (rows_of_index table i).
Proof.
  intros Hcell. unfold numeric_values. rewrite index_group_canonical_frame.
  induction (rows_of_index table i) as [|r l IH]; [reflexivity|].
  cbn [fmap list_fmap omap list_omap]. rewrite Hcell, to_numeric_numeric_cell.
  change (list_fmap _ _ ?f l) with (f <$> l).
  change (list_omap _ _ ?f ?l) with (omap f l) in *. rewrite IH. reflexivity.
Qed.

(** C5 (as amended): for every canonical table and index, the PBR module
    reports the number of the index's rows with a [pbr], the ROE module the
    number of those with a [roe], and the sector module the number of all the
    rows of the index, whatever their sector and weight hold; an index without
    rows is not reported. *)
Theorem reported_counts (table : list canonical) :
  exists pbr roe concentration,
    compute_pbr_stats (canonical_frame table) = Ok pbr
    /\ compute_roe_stats (canonical_frame table) = Ok roe
    /\ compute_concentration_metrics (canonical_frame table) = Ok concentration
    /\ forall index_name,
         pbr_count pbr !! index_name
           = reported (rows_of_index table index_name)
               (List.length (filter (fun r => is_Some (r_pbr r)) (rows_of_index table index_name)))
         /\ roe_count roe !! index_name
           = reported (rows_of_index table index_name)
               (List.length (filter (fun r => is_Some (r_roe r)) (rows_of_index table index_name)))
         /\ constituents concentration !! index_name
           = reported (rows_of_index table index_name)
               (List.length (rows_of_index table index_name)).
Proof.
  do 3 eexists. split; [reflexivity|]. split; [reflexivity|].
  split; [apply compute_concentration_metrics_Ok; reflexivity|].
  intros i. split; [|split].
  - rewrite (group_lookup pbr_count pbr_step
               (fun g => List.length (numeric_values g "pbr")) _ pbr_step_count).
    rewrite index_group_canonical_frame.
    rewrite (numeric_values_canonical_frame table i "pbr" r_pbr) by reflexivity.
    rewrite length_omap_filter. destruct (rows_of_index table i); reflexivity.
  - rewrite (group_lookup roe_count roe_step
               (fun g => List.length (numeric_values g "roe")) _ roe_step_count).
    rewrite index_group_canonical_frame.
    rewrite (numeric_values_canonical_frame table i "roe" r_roe) by reflexivity.
    rewrite length_omap_filter. destruct (rows_of_index table i); reflexivity.
  - rewrite (group_lookup constituents concentration_assign
               (fun g => List.length (rows g)) _ (fun s k g => eq_refl)).
    rewrite index_group_canonical_frame, length_fmap.
    destruct (rows_of_index table i); reflexivity.
Qed.


Lemma Qle_bool_false (x y : Q) : Qle_bool x y = false -> (y < x)%Q.
Proof.
  intros E. apply Qnot_le_lt. intros Hle. apply Qle_bool_iff in Hle. congruence.
Qed.




(** C8 (as amended): a module raises its validation error exactly when the
    table lacks [index] or the column the module checks: [pbr], [roe], or, for
    the sector module, [sector]. *)
Theorem validation_errors (dataset : DataFrame) :
  (is_value_error (compute_pbr_stats dataset) = true
   <-> has_column dataset "index" = false \/ has_column dataset "pbr" = false)
  /\ (is_value_error (compute_roe_stats dataset) = true
      <-> has_column dataset "index" = false \/ has_column dataset "roe" = false)
  /\ (is_value_error (compute_concentration_metrics dataset) = true
      <-> has_column dataset "index" = false \/ has_column dataset "sector" = false).
Proof.
  unfold compute_pbr_stats, compute_roe_stats, compute_concentration_metrics.
  destruct (has_column dataset "index"); cbn [negb is_value_error].
  - destruct (has_column dataset "pbr"), (has_column dataset "roe"),
      (has_column dataset "sector"); cbn [negb is_value_error];
      rewrite ?concentration_loop_not_value_error; intuition congruence.
  - intuition congruence.
Qed.

End StatisticsClaims.




(** C8, as stated, fails for [weight]: without that column the sector module
    raises no validation error; its weight resolution breaks instead. *)
Lemma concentration_metrics_without_weight :
  has_column no_weight_frame "index" = true
  /\ has_column no_weight_frame "sector" = true
  /\ has_column no_weight_frame "weight" = false
  /\ compute_concentration_metrics (H := Fixture.runtime) no_weight_frame
       = Raise (AttributeError "'numpy.float64' object has no attribute 'notna'")
  /\ is_value_error (compute_concentration_metrics (H := Fixture.runtime) no_weight_frame)
       = false.
Proof. repeat split; vm_compute; reflexivity. Qed.

(** C5, as stated, fails for the sector module: it counts a row whatever its
    sector and weight hold.  A single row with neither is reported as one
    constituent, while no row of the index has a sector and none has a
    weight. *)
Lemma constituents_counts_unclassified_row :
  exists concentration,
    compute_concentration_metrics (H := Fixture.runtime)
      (canonical_frame [unclassified_row]) = Ok concentration
    /\ constituents concentration !! "yomiuri333" = Some 1%nat
    /\ List.length (filter (fun r => is_null (r_sector r) = false)
                      (rows_of_index [unclassified_row] "yomiuri333")) = 0%nat
    /\ List.length (filter (fun r => is_Some (r_weight r))
                      (rows_of_index [unclassified_row] "yomiuri333")) = 0%nat
    /\ (Qred <$> hhi concentration !! "yomiuri333") = Some 1%Q.
Proof. eexists. repeat split; vm_compute; reflexivity. Qed.

(** Sectors that are numbers are sectors of their own, not "Unknown": two
    rows of equal weight in the sectors 5 and 7 have the index 1/2. *)
Example hhi_keeps_numbered_sectors_apart :
  exists concentration,
    compute_concentration_metrics (H := Fixture.runtime) numbered_sectors
      = Ok concentration
    /\ (Qred <$> hhi concentration !! "yomiuri333") = Some (1 # 2)%Q.
Proof. eexists. split; vm_compute; reflexivity. Qed.

(** The figures the test suite asserts for its fixture. *)
Example sample_metrics :
  exists pbr roe concentration,
    compute_pbr_stats (H := Fixture.runtime) (canonical_frame Sample.canonical_rows) = Ok pbr
    /\ compute_roe_stats (H := Fixture.runtime) (canonical_frame Sample.canonical_rows) = Ok roe
    /\ compute_concentration_metrics (H := Fixture.runtime)
         (canonical_frame Sample.canonical_rows) = Ok concentration
    /\ (Qred <$> default None (pbr_lt1 pbr !! "yomiuri333")) = Some (1 # 2)%Q
    /\ (Qred <$> default None (roe_median roe !! "yomiuri333")) = Some (43 # 10)%Q
    /\ (Qred <$> hhi concentration !! "yomiuri333") = Some (1 # 2)%Q.
Proof. do 3 eexists. repeat split; vm_compute; reflexivity. Qed.

(** ** The report narrative *)

Lemma pbr_bullet_cases pbr s :
  let y := safe_get pbr ["lt1"; "yomiuri333"] in
  let t := safe_get pbr ["lt1"; "topix"] in
  (is_none y || is_none t = true /\ pbr_bullet pbr s = Ok (caution s PbrMissing))
  \/ (exists yq tq, y = JNum yq /\ t = JNum tq /\ Qgtb (yq - tq) 0 = true
        /\ pbr_bullet pbr s = Ok (strength s (PbrHigher (yq - tq))))
  \/ (exists yq tq, y = JNum yq /\ t = JNum tq /\ Qgtb (yq - tq) 0 = false
        /\ pbr_bullet pbr s = Ok (weakness s (PbrLower (Qabs (yq - tq)))))
  \/ ((~ scalar y \/ ~ scalar t) /\ exists e, pbr_bullet pbr s = Raise e).
Proof.
  intros y t. unfold pbr_bullet. fold y t.
  destruct y as [|yq|dy], t as [|tq|dt]; cbn;
    try (left; split; reflexivity);
    try (do 3 right; split; [tauto|eexists; reflexivity]).
  destruct (Qgtb (yq - tq) 0) eqn:E.
  - right; left. exists yq, tq. auto.
  - do 2 right; left. exists yq, tq. auto.
Qed.

Lemma roe_bullet_cases roe s :
  let y := safe_get roe ["median"; "yomiuri333"] in
  let t := safe_get roe ["median"; "topix"] in
  (is_none y || is_none t = true /\ roe_bullet roe s = Ok (caution s RoeMissing))
  \/ (exists yq tq, y = JNum yq /\ t = JNum tq /\ Qle_bool 0 (yq - tq) = true
        /\ roe_bullet roe s = Ok (strength s (RoeAtLeast yq tq)))
  \/ (exists yq tq, y = JNum yq /\ t = JNum tq /\ Qle_bool 0 (yq - tq) = false
        /\ roe_bullet roe s = Ok (weakness s (RoeLower (Qabs (yq - tq)))))
  \/ ((~ scalar y \/ ~ scalar t) /\ exists e, roe_bullet roe s = Raise e).
Proof.
  intros y t. unfold roe_bullet. fold y t.
  destruct y as [|yq|dy], t as [|tq|dt]; cbn;
    try (left; split; reflexivity);
    try (do 3 right; split; [tauto|eexists; reflexivity]).
  destruct (Qle_bool 0 (yq - tq)) eqn:E.
  - right; left. exists yq, tq. auto.
  - do 2 right; left. exists yq, tq. auto.
Qed.

Lemma dy_bullet_cases dy s :
  let y := safe_get dy ["mean"; "yomiuri333"] in
  let t := safe_get dy ["mean"; "topix"] in
  (is_none y || is_none t = true /\ dy_bullet dy s = Ok (caution s DyMissing))
  \/ (exists yq tq, y = JNum yq /\ t = JNum tq /\ Qle_bool 0 (yq - tq) = true
        /\ dy_bullet dy s = Ok (strength s (DyAbove (yq - tq))))
  \/ (exists yq tq, y = JNum yq /\ t = JNum tq /\ Qle_bool 0 (yq - tq) = false
        /\ dy_bullet dy s = Ok (weakness s (DyBelow (Qabs (yq - tq)))))
  \/ ((~ scalar y \/ ~ scalar t) /\ exists e, dy_bullet dy s = Raise e).
Proof.
  intros y t. unfold dy_bullet. fold y t.
  destruct y as [|yq|dy'], t as [|tq|dt]; cbn;
    try (left; split; reflexivity);
    try (do 3 right; split; [tauto|eexists; reflexivity]).
  destruct (Qle_bool 0 (yq - tq)) eqn:E.
  - right; left. exists yq, tq. auto.
  - do 2 right; left. exists yq, tq. auto.
Qed.

Lemma hhi_bullet_cases hhi s :
  let y := safe_get hhi ["hhi"; "yomiuri333"] in
  let t := safe_get hhi ["hhi"; "topix"] in
  (is_none y = true /\ hhi_bullet hhi s = Ok (caution s HhiMissing))
  \/ (exists yq, y = JNum yq /\ is_none t = true
        /\ hhi_bullet hhi s = Ok (strength s (HhiDiversified yq)))
  \/ (exists yq tq, y = JNum yq /\ t = JNum tq /\ Qgtb yq tq = false
        /\ hhi_bullet hhi s = Ok (strength s (HhiDiversified yq)))
  \/ (exists yq tq, y = JNum yq /\ t = JNum tq /\ Qgtb yq tq = true
        /\ hhi_bullet hhi s = Ok (weakness s (HhiHigher tq yq)))
  \/ ((~ scalar y \/ ~ scalar t) /\ exists e, hhi_bullet hhi s = Raise e).
Proof.
  intros y t. unfold hhi_bullet. fold y t.
  destruct y as [|yq|dy], t as [|tq|dt]; cbn;
    try (left; split; reflexivity);
    try (do 4 right; split; [tauto|eexists; reflexivity]).
  - right; left. exists yq. auto.
  - destruct (Qgtb yq tq) eqn:E.
    + do 3 right; left. exists yq, tq. auto.
    + do 2 right; left. exists yq, tq. auto.
Qed.

Lemma Qgtb_zero_false (d : Q) : (d == 0)%Q -> Qgtb d 0 = false.
Proof.
  intros E. unfold Qgtb. apply negb_false_iff, Qle_bool_iff. rewrite E. apply Qle_refl.
Qed.

Lemma Qle_bool_zero_true (d : Q) : (d == 0)%Q -> Qle_bool 0 d = true.
Proof. intros E. apply Qle_bool_iff. rewrite E. apply Qle_refl. Qed.

Lemma Qgtb_tie_false (y t : Q) : (y - t == 0)%Q -> Qgtb y t = false.
Proof.
  intros E. unfold Qgtb. apply negb_false_iff, Qle_bool_iff.
  assert (Ey : (y == t)%Q) by (rewrite <- (Qplus_0_r t), <- E; ring).
  rewrite Ey. apply Qle_refl.
Qed.

(** The four steps in sequence. *)
Ltac narrative_cases pbr roe dy hhi :=
  unfold derive_logic_summary;
  let s0 := constr:({| strengths := []; weaknesses := []; cautions := [] |}) in
  destruct (pbr_bullet_cases pbr s0)
    as [(Mp & ->)|[(yp & tp & Yp & Tp & Cp & ->)|[(yp & tp & Yp & Tp & Cp & ->)|(Sp & ep & ->)]]];
  cbn [mbind result_bind];
  [ | | | ];
  try match goal with
      | |- context [roe_bullet roe ?s] =>
          destruct (roe_bullet_cases roe s)
            as [(Mr & ->)|[(yr & tr & Yr & Tr & Cr & ->)|[(yr & tr & Yr & Tr & Cr & ->)|(Sr & er & ->)]]];
          cbn [mbind result_bind]
      end;
  try match goal with
      | |- context [dy_bullet dy ?s] =>
          destruct (dy_bullet_cases dy s)
            as [(Md & ->)|[(yd & td & Yd & Td & Cd & ->)|[(yd & td & Yd & Td & Cd & ->)|(Sd & ed & ->)]]];
          cbn [mbind result_bind]
      end;
  try match goal with
      | |- context [hhi_bullet hhi ?s] =>
          destruct (hhi_bullet_cases hhi s)
            as [(Mh & ->)|[(yh & Yh & Th & ->)|[(yh & th & Yh & Th & Ch & ->)
                |[(yh & th & Yh & Th & Ch & ->)|(Sh & eh & ->)]]]];
          cbn [mbind result_bind]
      end.

Ltac scalar_clash :=
  match goal with
  | S : ~ scalar ?y \/ ~ scalar ?t, Hy : scalar ?y, Ht : scalar ?t |- _ =>
      exfalso; destruct S as [S|S]; [exact (S Hy)|exact (S Ht)]
  end.

Ltac none_clash :=
  cbn [primary benchmark] in *;
  repeat match goal with
         | E : safe_get ?d ?k = JNum _, M : context [safe_get ?d ?k] |- _ =>
             rewrite E in M
         end;
  try discriminate;
  repeat match goal with
         | M : _ \/ _ |- _ => destruct M as [M|M]; try discriminate
         end.

(** The ties in general: when both values of a family are present and their
    difference is 0, the bullet of the ROE, yield and HHI families is a
    strength, and the bullet of the PBR family is a weakness. *)
Theorem derive_logic_summary_ties (pbr roe dy hhi : json) (s : summary) :
  derive_logic_summary pbr roe dy hhi = Ok s ->
  forall (f : family) (y t : Q),
    f <> TOP10 ->
    primary f pbr roe dy hhi = JNum y ->
    benchmark f pbr roe dy hhi = JNum t ->
    (y - t == 0)%Q ->
    exists b,
      family_of b = f
      /\ bullets_of f (strengths s) = (if decide (f = PBR) then [] else [b])
      /\ bullets_of f (weaknesses s) = (if decide (f = PBR) then [b] else [])
      /\ bullets_of f (cautions s) = [].
Proof.
  intros E f y t Hf Ey Et Htie. revert E.
  narrative_cases pbr roe dy hhi; try discriminate; intros [= <-];
    destruct f; try congruence; cbn [primary benchmark] in Ey, Et;
    repeat match goal with
           | A : safe_get ?d ?k = JNum _, B : safe_get ?d ?k = JNum _ |- _ =>
               rewrite A in B; injection B as ->
           | A : safe_get ?d ?k = JNum _, M : context [safe_get ?d ?k] |- _ =>
               rewrite A in M
           end;
    try discriminate;
    try (rewrite (Qgtb_zero_false _ Htie) in *; discriminate);
    try (rewrite (Qle_bool_zero_true _ Htie) in *; discriminate);
    try (rewrite (Qgtb_tie_false _ _ Htie) in *; discriminate);
    unfold top10_bullet;
    destruct (is_none (safe_get hhi ["top10_weight"; "yomiuri333"]));
    (eexists; (split; [|split; [|split]]); [|reflexivity..]; reflexivity).
Qed.

(** C3 (as amended): when the compared entries are numbers or missing, the
    narrative is produced and every family has exactly one bullet, in exactly
    one bucket.  The bullet of the PBR, ROE and yield families is a caution
    when a value is missing on either side; the bullet of the HHI family is a
    caution when the primary index's value is missing, and a strength when
    only the benchmark's is.  The only other bullet is one caution, present
    exactly when the primary index has no top-10 weight. *)
Theorem derive_logic_summary_buckets (pbr roe dy hhi : json) :
  comparable pbr roe dy hhi ->
  exists s,
    derive_logic_summary pbr roe dy hhi = Ok s
    /\ (forall f, f <> TOP10 ->
          exists b, bullets_of f (all_bullets s) = [b]
            /\ (bullets_of f (strengths s) = [b] /\ bullets_of f (weaknesses s) = []
                  /\ bullets_of f (cautions s) = []
                \/ bullets_of f (strengths s) = [] /\ bullets_of f (weaknesses s) = [b]
                  /\ bullets_of f (cautions s) = []
                \/ bullets_of f (strengths s) = [] /\ bullets_of f (weaknesses s) = []
                  /\ bullets_of f (cautions s) = [b]))
    /\ (forall f, f = PBR \/ f = ROE \/ f = DY ->
          is_none (primary f pbr roe dy hhi) = true
          \/ is_none (benchmark f pbr roe dy hhi) = true ->
          exists b, bullets_of f (cautions s) = [b])
    /\ (is_none (primary HHI pbr roe dy hhi) = true ->
          bullets_of HHI (cautions s) = [HhiMissing])
    /\ (is_none (primary HHI pbr roe dy hhi) = false ->
          is_none (benchmark HHI pbr roe dy hhi) = true ->
          exists b, bullets_of HHI (strengths s) = [b])
    /\ bullets_of TOP10 (strengths s ++ weaknesses s) = []
    /\ bullets_of TOP10 (cautions s)
         = (if is_none (primary TOP10 pbr roe dy hhi) then [Top10Missing] else []).
Proof.
  intros Hc.
  destruct (Hc PBR ltac:(discriminate)) as [Hp1 Hp2].
  destruct (Hc ROE ltac:(discriminate)) as [Hr1 Hr2].
  destruct (Hc DY ltac:(discriminate)) as [Hd1 Hd2].
  destruct (Hc HHI ltac:(discriminate)) as [Hh1 Hh2].
  cbn [primary benchmark] in *. clear Hc.
  narrative_cases pbr roe dy hhi; try scalar_clash;
    clear Hp1 Hp2 Hr1 Hr2 Hd1 Hd2 Hh1 Hh2;
    (eexists; split; [reflexivity|]);
    unfold top10_bullet;
    destruct (is_none (safe_get hhi ["top10_weight"; "yomiuri333"]));
    ((split; [|split; [|split; [|split; [|split]]]]);
    [ intros f Hf; destruct f; try congruence;
      (eexists; split; [reflexivity|]);
      first [ left; repeat split; reflexivity
            | right; left; repeat split; reflexivity
            | right; right; repeat split; reflexivity ]
    | intros f [->|[->| ->]] M; none_clash; eexists; reflexivity
    | intros M; none_clash; reflexivity
    | intros M1 M2; none_clash; try congruence; eexists; reflexivity
    | reflexivity
    | reflexivity ]).
Qed.

(** An instance of the ties: equal [lt1] ratios. *)
Lemma derive_logic_summary_ties_sample :
  exists b,
    family_of b = PBR
    /\ bullets_of PBR (strengths tie_summary) = []
    /\ bullets_of PBR (weaknesses tie_summary) = [b]
    /\ bullets_of PBR (cautions tie_summary) = [].
Proof.
  apply (derive_logic_summary_ties RenderSample.pbr_tie RenderSample.roe_tie
           RenderSample.dy_tie RenderSample.hhi_tie tie_summary
           eq_refl PBR 0.5%Q 0.5%Q).
  - discriminate.
  - reflexivity.
  - reflexivity.
  - reflexivity.
Defined.

(** C2 at the failing input: documents in which the two indices tie in every
    family.  The PBR branch tests [diff > 0] where the ROE and yield branches
    test [diff >= 0]: the bullets of ROE, yield and HHI are strengths, the PBR
    bullet is a weakness and no strength speaks of PBR, while for the same
    documents the PBR insight of [build_insights], which tests [diff >= 0],
    puts the primary index above the benchmark. *)
Theorem derive_logic_summary_pbr_tie :
  derive_logic_summary RenderSample.pbr_tie RenderSample.roe_tie
    RenderSample.dy_tie RenderSample.hhi_tie = Ok tie_summary
  /\ primary PBR RenderSample.pbr_tie RenderSample.roe_tie
       RenderSample.dy_tie RenderSample.hhi_tie = JNum 0.5
  /\ benchmark PBR RenderSample.pbr_tie RenderSample.roe_tie
       RenderSample.dy_tie RenderSample.hhi_tie = JNum 0.5
  /\ (0.5 - 0.5 == 0)%Q
  /\ bullets_of PBR (strengths tie_summary) = []
  /\ bullets_of PBR (weaknesses tie_summary) = [PbrLower (Qabs (0.5 - 0.5))]
  /\ bullets_of ROE (strengths tie_summary) = [RoeAtLeast 4.3 4.3]
  /\ List.length (bullets_of DY (strengths tie_summary)) = 1%nat
  /\ List.length (bullets_of HHI (strengths tie_summary)) = 1%nat
  /\ build_insights RenderSample.pbr_tie RenderSample.roe_tie
       RenderSample.dy_tie RenderSample.hhi_tie = Ok FurtherSample.tie_insights
  /\ insight_favours PBR FurtherSample.tie_insights = true.
Proof. repeat split. Qed.

(** C3, an instance: no PBR, ROE or yield figures, and an [hhi] for the
    primary index only. *)
Lemma derive_logic_summary_buckets_sample :
  exists s,
    derive_logic_summary RenderSample.empty RenderSample.empty RenderSample.empty
      RenderSample.hhi_primary_only = Ok s
    /\ bullets_of HHI (strengths s) = [HhiDiversified 0.5]
    /\ bullets_of TOP10 (cautions s) = [Top10Missing]
    /\ List.length (all_bullets s) = 5%nat.
Proof.
  destruct (derive_logic_summary_buckets RenderSample.empty RenderSample.empty
              RenderSample.empty RenderSample.hhi_primary_only)
    as (s & E & _).
  { intros f _. destruct f; split; exact I. }
  exists s. split; [exact E|].
  injection E as <-. repeat split.
Defined.

(** C3, as stated, fails for the HHI family: the benchmark's [hhi] is missing
    and the bullet is a strength, not a caution. *)
Lemma derive_logic_summary_hhi_without_benchmark :
  derive_logic_summary RenderSample.empty RenderSample.empty RenderSample.empty
    RenderSample.hhi_primary_only = Ok primary_only_summary
  /\ is_none (benchmark HHI RenderSample.empty RenderSample.empty RenderSample.empty
                RenderSample.hhi_primary_only) = true
  /\ bullets_of HHI (cautions primary_only_summary) = []
  /\ bullets_of HHI (strengths primary_only_summary) = [HhiDiversified 0.5].
Proof. repeat split. Qed.

(** ** The metric accessor *)

Section AccessorClaims.
Context `{Interpreter}.

Lemma get_returns (o : object) (a : access) :
  (forall q, o <> Number q) -> exists v, get (Known o) a = Ok v.
Proof.
  intros Ho. destruct a as [item|item]; cbn [get]; unfold getattr, getitem.
  - destruct (lookup o item); [eexists; reflexivity|].
    destruct o as [_data| |q]; [eexists; reflexivity..|]. exfalso. exact (Ho q eq_refl).
  - destruct o as [_data| |q]; [eexists; reflexivity..|]. exfalso. exact (Ho q eq_refl).
Qed.

(** A chain of accesses raises only at an access applied to a number or to
    another object. *)
Lemma follow_raises_only_off_classes (path : list access) : forall v : value foreign,
  (exists v', follow v path = Ok v')
  \/ (exists before a after w e,
        path = before ++ a :: after
        /\ follow v before = Ok w
        /\ (forall o, w = Known o -> exists q, o = Number q)
        /\ get w a = Raise e).
Proof.
  induction path as [|a path IH]; intros v.
  - left. exists v. reflexivity.
  - cbn [follow]. destruct (get v a) as [v'|e] eqn:E; cbn [mbind result_bind].
    + destruct (IH v') as [Hok|(before & a' & after & w & e & -> & Hb & Hw & Hr)];
        [left; exact Hok|].
      right. exists (a :: before), a', after, w, e. split; [reflexivity|].
      split; [|split; [exact Hw|exact Hr]].
      cbn [follow]. rewrite E. exact Hb.
    + right. exists [], a, path, v, e. split; [reflexivity|]. split; [reflexivity|].
      split; [|exact E].
      intros o ->. destruct o as [_data| |q]; [| |exists q; reflexivity].
      * destruct (get_returns (MetricAccessor _data) a) as (v' & E'); [discriminate|].
        congruence.
      * destruct (get_returns MissingValue a) as (v' & E'); [discriminate|].
        congruence.
Qed.

Lemma follow_MissingValue (path : list access) :
  Forall reaches_hook path -> follow (Known MissingValue) path = Ok (Known MissingValue).
Proof.
  induction 1 as [|a path Ha _ IH]; [reflexivity|].
  cbn [follow]. destruct a as [item|item]; cbn [get]; unfold getattr, getitem.
  - rewrite (Ha MissingValue). exact IH.
  - exact IH.
Qed.

(** C10 (as amended): no access to the accessor or to the sentinel raises.
    An item access to the accessor that [wrap_metrics] returns gives the
    sentinel for an absent or null entry of the document, an accessor for a
    nested mapping and the leaf itself otherwise; an attribute access gives
    what ordinary lookup finds under the name, and the same as the item access
    under a name that it does not find.  The sentinel is falsy, prints as the
    empty string and gives itself under every item access and every such
    attribute access.  A sequence of accesses raises only at an access applied
    to a leaf, which is a plain number, or to another object that ordinary
    lookup found. *)
Theorem wrap_metrics_accesses (data : option (list (string * json))) (path : list access) :
  (forall item,
     get (Known (wrap_metrics data)) (Item item)
       = Ok (Known match json_get (default [] data) item with
                   | None | Some JNull => MissingValue
                   | Some (JDict nested) => wrap_metrics (Some nested)
                   | Some (JNum leaf) => Number leaf
                   end))
  /\ (forall item,
        get (Known (wrap_metrics data)) (Attribute item)
          = match lookup (wrap_metrics data) item with
            | Some found => Ok found
            | None => get (Known (wrap_metrics data)) (Item item)
            end)
  /\ (forall item, get (Known MissingValue) (Item item) = Ok (Known MissingValue))
  /\ (forall item,
        lookup MissingValue item = None ->
        get (Known MissingValue) (Attribute item) = Ok (Known MissingValue))
  /\ (Forall reaches_hook path ->
      follow (Known MissingValue) path = Ok (Known MissingValue))
  /\ MissingValue_bool = false
  /\ MissingValue_str = ""
  /\ wrap_metrics None = wrap_metrics (Some [])
  /\ (forall o a, (forall q, o <> Number q) -> exists v, get (Known o) a = Ok v)
  /\ ((exists v, follow (Known (wrap_metrics data)) path = Ok v)
      \/ (exists before a after w e,
            path = before ++ a :: after
            /\ follow (Known (wrap_metrics data)) before = Ok w
            /\ (forall o, w = Known o -> exists q, o = Number q)
            /\ get w a = Raise e)).
Proof.
  split.
  { intros item. cbn [get getitem wrap_metrics]. unfold MetricAccessor_getattr.
    destruct (json_get (default [] data) item) as [[| |]|]; reflexivity. }
  split.
  { intros item. cbn [get wrap_metrics]. unfold getattr, getitem.
    destruct (lookup (MetricAccessor (default [] data)) item); reflexivity. }
  split; [reflexivity|].
  split; [intros item E; cbn [get]; unfold getattr; rewrite E; reflexivity|].
  split; [apply follow_MissingValue|].
  repeat (split; [reflexivity|]).
  split; [apply get_returns|].
  apply follow_raises_only_off_classes.
Qed.

End AccessorClaims.

(** C10, as stated, fails for an access that follows a leaf: with the document
    [{"a": 0.5}] the chain [.a.b] raises, and so does [["a"]["b"]]. *)
Lemma wrap_metrics_leaf_access_raises :
  follow (H := RenderSample.interpreter) (Known (wrap_metrics (Some RenderSample.leaf)))
    [Attribute "a"; Attribute "b"]
    = Raise (AttributeError "'float' object has no attribute 'b'")
  /\ follow (H := RenderSample.interpreter) (Known (wrap_metrics (Some RenderSample.leaf)))
       [Item "a"; Item "b"]
       = Raise (TypeError "'float' object is not subscriptable")
  /\ follow (H := RenderSample.interpreter) (Known (wrap_metrics (Some RenderSample.leaf)))
       [Attribute "a"]
       = Ok (Known (Number 0.5)).
Proof. repeat split. Qed.

(** * Further properties *)

(** ** [safe_get] and the accessor *)

(** X1: looking up a path in two steps is looking it up in one: a missing
    or non-mapping value met on the way stays [None] to the end. *)
Theorem safe_get_app (data : json) (keys1 keys2 : list string) :
  safe_get data (keys1 ++ keys2) = safe_get (safe_get data keys1) keys2.
Proof.
  revert data. induction keys1 as [|key keys1 IH]; intros data; [reflexivity|].
  assert (Hnull : safe_get JNull keys2 = JNull) by (destruct keys2; reflexivity).
  cbn [app safe_get]. destruct data as [|q|d]; try (symmetry; exact Hnull).
  destruct (json_get d key) as [[|q|d']|]; try (symmetry; exact Hnull); apply IH.
Qed.

Section AccessorFurther.
Context `{Interpreter}.

(** X2: whenever a chain of accesses that reach [__getattr__] (item accesses,
    and attribute accesses under names that ordinary lookup does not find)
    returns on the accessor, it returns the view of what [safe_get] finds under
    the same keys. *)
Theorem follow_safe_get (path : list access) :
  forall (data : list (string * json)) (v : value foreign),
  Forall reaches_hook path ->
  follow (Known (MetricAccessor data)) path = Ok v ->
  v = Known (view (safe_get (JDict data) (item_of <$> path))).
Proof.
  induction path as [|a path IH]; intros data v Hpath E.
  - injection E as <-. reflexivity.
  - apply Forall_cons in Hpath as [Ha Hpath].
    assert (Eget : get (Known (MetricAccessor data)) a
                   = Ok (Known (MetricAccessor_getattr data (item_of a)))).
    { destruct a as [item|item]; cbn [get item_of]; unfold getattr, getitem;
        [rewrite (Ha (MetricAccessor data))|]; reflexivity. }
    cbn [follow] in E. rewrite Eget in E. cbn [mbind result_bind] in E.
    cbn [fmap list_fmap safe_get]. unfold MetricAccessor_getattr in E.
    destruct (json_get data (item_of a)) as [[|q|d']|].
    + rewrite (follow_MissingValue path Hpath) in E. injection E as <-. reflexivity.
    + destruct path as [|a' path]; [injection E as <-; reflexivity|].
      apply Forall_cons in Hpath as [Ha' _].
      cbn [follow] in E. destruct a' as [item|item]; cbn [get] in E;
        unfold getattr, getitem in E; [rewrite (Ha' (Number q)) in E|]; discriminate.
    + exact (IH d' v Hpath E).
    + rewrite (follow_MissingValue path Hpath) in E. injection E as <-. reflexivity.
Qed.

End AccessorFurther.

(** X2, an instance. *)
Lemma follow_safe_get_sample :
  Known (Number 0.5)
    = Known (foreign := string)
        (view (safe_get RenderSample.pbr_tie (item_of <$> [Attribute "lt1"; Item "topix"]))).
Proof.
  apply (follow_safe_get (H := RenderSample.interpreter) [Attribute "lt1"; Item "topix"]
           [("lt1", JDict [("yomiuri333", JNum 0.5); ("topix", JNum 0.5)])]).
  - repeat constructor. intros [_data| |q]; reflexivity.
  - reflexivity.
Defined.

(** ** The insights of the page *)

Lemma Qgtb_true (d : Q) : Qgtb d 0 = true <-> (0 < d)%Q.
Proof.
  unfold Qgtb. rewrite negb_true_iff. split.
  - apply Qle_bool_false.
  - intros Hd. destruct (Qle_bool d 0) eqn:E; [|reflexivity].
    apply Qle_bool_iff in E. exfalso. exact (Qlt_not_le _ _ Hd E).
Qed.

Lemma Qle_bool_scaled (d : Q) : Qle_bool 0 (d * 100) = Qle_bool 0 d.
Proof.
  assert (Hiff : (0 <= d * 100 <-> 0 <= d)%Q).
  { rewrite <- (Qmult_le_r 0 d 100) by reflexivity. rewrite Qmult_0_l. reflexivity. }
  destruct (Qle_bool 0 d) eqn:E.
  - apply Qle_bool_iff, Hiff, Qle_bool_iff, E.
  - destruct (Qle_bool 0 (d * 100)) eqn:E'; [|reflexivity].
    apply Qle_bool_iff, Hiff, Qle_bool_iff in E'. congruence.
Qed.

Lemma pbr_tie_iff (d : Q) :
  Qle_bool 0 d = true /\ Qgtb d 0 = false <-> (d == 0)%Q.
Proof.
  split.
  - intros [Hle Hgt]. apply Qle_bool_iff in Hle.
    unfold Qgtb in Hgt. apply negb_false_iff, Qle_bool_iff in Hgt.
    apply Qle_antisym; assumption.
  - intros E. split; [apply Qle_bool_zero_true, E|apply Qgtb_zero_false, E].
Qed.

Lemma missing_pair (y t : json) :
  is_none y || is_none t = true -> negb (is_none y) && negb (is_none t) = false.
Proof. destruct (is_none y), (is_none t); simpl; congruence. Qed.

Lemma missing_one (y : json) : is_none y = true -> negb (is_none y) = false.
Proof. intros ->. reflexivity. Qed.

(** The insights, once the narrative's case is known. *)
Ltac insight_cases :=
  unfold build_insights, value_insight, profit_insight, income_insight,
    concentration_insight;
  repeat match goal with
         | M : is_none _ || is_none _ = true |- _ => rewrite (missing_pair _ _ M); clear M
         | M : is_none (safe_get _ ["hhi"; "yomiuri333"]) = true |- _ =>
             rewrite (missing_one _ M); clear M
         | E : safe_get _ _ = JNum _ |- _ => rewrite E; clear E
         end;
  cbn [is_none negb andb number mbind result_bind].

(** X3: whenever the narrative is produced, so are the insights of the page:
    four of them, on value, profitability, income and concentration in that
    order. *)
Theorem build_insights_after_logic (pbr roe dy hhi : json) (s : summary) :
  derive_logic_summary pbr roe dy hhi = Ok s ->
  exists insights,
    build_insights pbr roe dy hhi = Ok insights
    /\ insight_family <$> insights = [PBR; ROE; DY; HHI].
Proof.
  intros E. revert E.
  narrative_cases pbr roe dy hhi; try discriminate; intros _;
    insight_cases; (eexists; split; reflexivity).
Qed.

(** X4: the insight and the narrative of a family say the same of ROE and of
    yield.  Of PBR they differ exactly at a tie: a PBR strength always comes
    with an insight that the benchmark is exceeded, and that insight comes
    with a PBR weakness exactly when the two ratios are equal. *)
Theorem insights_agree_with_logic (pbr roe dy hhi : json) (s : summary)
    (insights : list insight) :
  derive_logic_summary pbr roe dy hhi = Ok s ->
  build_insights pbr roe dy hhi = Ok insights ->
  insight_favours ROE insights = strength_of ROE s
  /\ insight_favours DY insights = strength_of DY s
  /\ (strength_of PBR s = true -> insight_favours PBR insights = true)
  /\ (insight_favours PBR insights = true /\ strength_of PBR s = false
      <-> exists y t,
            primary PBR pbr roe dy hhi = JNum y
            /\ benchmark PBR pbr roe dy hhi = JNum t
            /\ (y - t == 0)%Q).
Proof.
  intros E I. revert E I. cbn [primary benchmark].
  narrative_cases pbr roe dy hhi; try discriminate; intros [= <-];
    unfold top10_bullet;
    destruct (is_none (safe_get hhi ["top10_weight"; "yomiuri333"])).
  all: unfold build_insights, value_insight, profit_insight, income_insight,
         concentration_insight.
  all: repeat match goal with
         | M : is_none _ || is_none _ = true |- _ => rewrite (missing_pair _ _ M)
         | M : is_none (safe_get _ ["hhi"; "yomiuri333"]) = true |- _ =>
             rewrite (missing_one _ M); clear M
         | E : safe_get _ ["median"; _] = JNum _ |- _ => rewrite E; clear E
         | E : safe_get _ ["mean"; _] = JNum _ |- _ => rewrite E; clear E
         | E : safe_get _ ["hhi"; _] = JNum _ |- _ => rewrite E; clear E
         end.
  all: try rewrite Yp, Tp.
  all: cbn [is_none negb andb number mbind result_bind].
  all: rewrite ?Qle_bool_scaled; unfold Qltb.
  all: repeat match goal with
         | C : Qle_bool 0 _ = _ |- _ => rewrite C; clear C
         end.
  all: try (destruct (Qle_bool 0 (yp - tp)) eqn:Lp).
  all: try (exfalso; apply Qgtb_true in Cp; apply Qlt_le_weak, Qle_bool_iff in Cp;
            congruence).
  all: intros [= <-].
  all: (split; [reflexivity|]); (split; [reflexivity|]).
  all: (split; [vm_compute; congruence|]).
  all: unfold insight_favours, strength_of;
       cbn [existsb insight_family favourable bool_decide decide_rel andb orb
            bullets_of strengths weaknesses cautions strength weakness caution].
  all: split;
    [ intros [F S]; vm_compute in F, S; try discriminate;
      exists yp, tp; repeat split; apply pbr_tie_iff; split; assumption
    | intros (y & t & Ey & Et & Htie);
      first [ rewrite Ey, Et in Mp; discriminate
            | injection Ey as <-; injection Et as <-;
              first [ rewrite (Qgtb_zero_false _ Htie) in Cp; discriminate
                    | rewrite (Qle_bool_zero_true _ Htie) in Lp; discriminate
                    | split; vm_compute; reflexivity ] ] ].
Qed.

(** ** The canonical builder, further *)

Section BuilderFurther.
Context `{Runtime}.

Lemma same_pair_key (a b : financial) :
  same_pair a b = true <-> financial_key a = financial_key b.
Proof.
  unfold same_pair, financial_key. rewrite andb_true_iff, bool_decide_eq_true, String.eqb_eq.
  split; [intros [-> ->]; reflexivity|intros [= -> ->]; auto].
Qed.

Lemma drop_duplicates_last_subset (l : list financial) (f : financial) :
  f ∈ drop_duplicates_last same_pair l -> f ∈ l.
Proof.
  induction l as [|x l IH]; [trivial|]. cbn [drop_duplicates_last].
  destruct (existsb (same_pair x) l).
  - intros Hf. right. exact (IH Hf).
  - intros Hf. apply elem_of_cons in Hf as [->|Hf]; [left|right; exact (IH Hf)].
Qed.

Lemma drop_duplicates_last_keys (l : list financial) (k : option string * string) :
  k ∈ financial_key <$> drop_duplicates_last same_pair l <-> k ∈ financial_key <$> l.
Proof.
  induction l as [|x l IH]; [reflexivity|]. cbn [drop_duplicates_last].
  destruct (existsb (same_pair x) l) eqn:Ex.
  - rewrite IH, fmap_cons, elem_of_cons. split; [auto|].
    intros [->|Hk]; [|exact Hk].
    apply existsb_exists in Ex as (y & Hy & Sxy). apply same_pair_key in Sxy.
    rewrite Sxy. apply list_elem_of_fmap_2, list_elem_of_In, Hy.
  - rewrite !fmap_cons, !elem_of_cons, IH. reflexivity.
Qed.

Lemma drop_duplicates_last_NoDup (l : list financial) :
  NoDup (financial_key <$> drop_duplicates_last same_pair l).
Proof.
  induction l as [|x l IH]; [constructor|]. cbn [drop_duplicates_last].
  destruct (existsb (same_pair x) l) eqn:Ex; [exact IH|].
  rewrite fmap_cons. constructor; [|exact IH].
  intros Hk. apply (proj1 (drop_duplicates_last_keys l _)) in Hk.
  apply list_elem_of_fmap in Hk as (y & Ky & Hy).
  assert (existsb (same_pair x) l = true); [|congruence].
  apply existsb_exists. exists y. split; [apply list_elem_of_In, Hy|].
  apply same_pair_key, Ky.
Qed.

(** X6: deduplication leaves records of the input, at most one for each
    (index, code), and loses no (index, code). *)
Theorem deduplicate_unique_keys (financials_df : list financial) :
  NoDup (financial_key <$> deduplicate financials_df)
  /\ (forall f, f ∈ deduplicate financials_df -> f ∈ financials_df)
  /\ (forall k, k ∈ financial_key <$> deduplicate financials_df
                <-> k ∈ financial_key <$> financials_df).
Proof.
  unfold deduplicate. destruct financials_df as [|f0 fs].
  { split; [constructor|]. split; [trivial|reflexivity]. }
  set (l := f0 :: fs). split; [apply drop_duplicates_last_NoDup|]. split.
  - intros f Hf. apply drop_duplicates_last_subset in Hf.
    rewrite (sort_values_Permutation financial_leb l) in Hf. exact Hf.
  - intros k. rewrite drop_duplicates_last_keys.
    rewrite (sort_values_Permutation financial_leb l). reflexivity.
Qed.

Lemma latest_None (fs : list financial) (c : constituent) :
  latest fs c = None <-> forall f, f ∈ fs -> joins c f = false.
Proof.
  unfold latest. rewrite last_None. split.
  - intros E f Hf. destruct (joins c f) eqn:J; [|reflexivity].
    assert (Hin : In f (List.filter (joins c) (sort_values financial_leb fs))).
    { apply filter_In. split; [|exact J]. apply list_elem_of_In.
      rewrite (sort_values_Permutation financial_leb fs). exact Hf. }
    rewrite E in Hin. destruct Hin.
  - intros Hall. destruct (List.filter _ _) as [|g l] eqn:F; [reflexivity|].
    assert (Hin : In g (List.filter (joins c) (sort_values financial_leb fs))).
    { rewrite F. left. reflexivity. }
    apply filter_In in Hin as [Hg Jg]. apply list_elem_of_In in Hg.
    rewrite (sort_values_Permutation financial_leb fs) in Hg.
    rewrite (Hall g Hg) in Jg. discriminate.
Qed.

(** X7: a constituent none of whose (index, code) the financial records carry
    keeps its row: the financial columns and the date of the row are missing,
    and its weight is the constituent's own. *)
Theorem build_canonical_unmatched (constituents_raw financials_raw : yaml)
    (cs : list constituent) (fs : list financial) (c : constituent) :
  _normalize_constituents constituents_raw = Ok cs ->
  _normalize_financials financials_raw = Ok fs ->
  fs <> [] ->
  c ∈ cs ->
  (forall f, f ∈ fs -> joins c f = false) ->
  exists rows row,
    build_canonical constituents_raw financials_raw = Ok rows
    /\ row ∈ rows
    /\ r_index row = c_index c /\ r_code row = c_code c
    /\ r_name row = c_name c /\ r_sector row = c_sector c
    /\ r_weight row = to_numeric (c_weight c)
    /\ r_date row = None /\ r_pbr row = None /\ r_roe row = None
    /\ r_dy row = None /\ r_market_cap row = None.
Proof.
  intros Ec Ef Hfs Hc Hnone. apply latest_None in Hnone.
  eexists. exists (canonical_row (c, None)).
  split; [exact (build_canonical_rows _ _ _ _ Ec Ef Hfs)|]. split.
  - rewrite (sort_values_Permutation canonical_leb).
    apply list_elem_of_fmap. exists c. rewrite Hnone. auto.
  - cbn. destruct (is_null (c_weight c)) eqn:N; repeat split; try reflexivity.
    destruct (c_weight c); try discriminate. reflexivity.
Qed.

(** X8: a constituent whose (index, code) some financial record carries gets
    the figures of one record of that key: one whose date is greatest in the
    order of the sort, where a missing date comes after every date. *)
Theorem build_canonical_matched (constituents_raw financials_raw : yaml)
    (cs : list constituent) (fs : list financial) (c : constituent) (f : financial) :
  _normalize_constituents constituents_raw = Ok cs ->
  _normalize_financials financials_raw = Ok fs ->
  c ∈ cs ->
  f ∈ fs ->
  joins c f = true ->
  exists rows row g,
    build_canonical constituents_raw financials_raw = Ok rows
    /\ row ∈ rows /\ g ∈ fs /\ joins c g = true
    /\ r_index row = c_index c /\ r_code row = c_code c
    /\ r_date row = strftime <$> f_date g
    /\ r_pbr row = to_numeric (f_pbr g) /\ r_roe row = to_numeric (f_roe g)
    /\ r_dy row = to_numeric (f_dy g)
    /\ r_market_cap row = to_numeric (f_market_cap g)
    /\ (forall h, h ∈ fs -> joins c h = true ->
          not_gt (compare_na_last Z.compare (f_date h) (f_date g)) = true).
Proof.
  intros Ec Ef Hc Hf Jf.
  assert (Hfs : fs <> []) by (intros ->; exact (not_elem_of_nil _ Hf)).
  destruct (latest fs c) as [g|] eqn:L.
  2:{ rewrite (proj1 (latest_None fs c) L f Hf) in Jf. discriminate. }
  destruct (latest_greatest_date fs c g L) as (Hg & Jg & Hmax).
  eexists. exists (canonical_row (c, Some g)), g.
  split; [exact (build_canonical_rows _ _ _ _ Ec Ef Hfs)|]. split.
  - rewrite (sort_values_Permutation canonical_leb).
    apply list_elem_of_fmap. exists c. rewrite L. auto.
  - repeat split; try assumption; reflexivity.
Qed.

End BuilderFurther.

(** ** The statistics modules, further *)

Section StatisticsFurther.
Context `{Runtime}.

Lemma pbr_step_lt1 metrics k g :
  pbr_lt1 (pbr_step metrics (k, g))
    = <[k := match numeric_values g "pbr" with
             | [] => None
             | series =>
                 Some (Qnat (List.length (List.filter (fun x => Qltb x 1) series))
                       / Qnat (List.length series))%Q
             end]> (pbr_lt1 metrics).
Proof. unfold pbr_step. destruct (numeric_values g "pbr"); reflexivity. Qed.

Lemma pbr_step_mean metrics k g :
  pbr_mean (pbr_step metrics (k, g))
    = <[k := match numeric_values g "pbr" with
             | [] => None
             | series => Some (mean series)
             end]> (pbr_mean metrics).
Proof. unfold pbr_step. destruct (numeric_values g "pbr"); reflexivity. Qed.

Lemma pbr_step_median metrics k g :
  pbr_median (pbr_step metrics (k, g))
    = <[k := match numeric_values g "pbr" with
             | [] => None
             | series => Some (median series)
             end]> (pbr_median metrics).
Proof. unfold pbr_step. destruct (numeric_values g "pbr"); reflexivity. Qed.

Lemma length_List_filter_le {A} (p : A -> bool) (l : list A) :
  (List.length (List.filter p l) <= List.length l)%nat.
Proof. induction l as [|x l IH]; simpl; [lia|]. destruct (p x); simpl; lia. Qed.

Lemma Qnat_le (n m : nat) : (n <= m)%nat -> (Qnat n <= Qnat m)%Q.
Proof. intros Hnm. unfold Qnat. rewrite <- Zle_Qle. lia. Qed.

Lemma ratio_bounds (n m : nat) :
  (n <= m)%nat -> (0 < m)%nat -> (0 <= Qnat n / Qnat m <= 1)%Q.
Proof.
  intros Hnm Hm. pose proof (Qnat_pos m Hm) as Hpos. split.
  - apply Qle_shift_div_l; [exact Hpos|]. rewrite Qmult_0_l.
    apply (Qnat_le 0 n). lia.
  - apply Qle_shift_div_r; [exact Hpos|]. rewrite Qmult_1_l. apply Qnat_le, Hnm.
Qed.

(** X9: the PBR module reports the same index names under its four metrics:
    the index names of the table.  For an index it reports null for [lt1],
    [mean] and [median] exactly when the index has no [pbr] value, and then a
    count of 0; otherwise the three are numbers and [lt1] lies between 0 and
    1. *)
Theorem compute_pbr_stats_groups (dataset : DataFrame) :
  has_column dataset "index" = true ->
  has_column dataset "pbr" = true ->
  exists metrics,
    compute_pbr_stats dataset = Ok metrics
    /\ forall index_name,
         match rows (index_group dataset index_name) with
         | [] =>
             pbr_count metrics !! index_name = None
             /\ pbr_lt1 metrics !! index_name = None
             /\ pbr_mean metrics !! index_name = None
             /\ pbr_median metrics !! index_name = None
         | _ =>
             pbr_count metrics !! index_name
               = Some (List.length (pbr_series dataset index_name))
             /\ match pbr_series dataset index_name with
                | [] =>
                    pbr_lt1 metrics !! index_name = Some None
                    /\ pbr_mean metrics !! index_name = Some None
                    /\ pbr_median metrics !! index_name = Some None
                | series =>
                    exists lt1,
                      pbr_lt1 metrics !! index_name = Some (Some lt1)
                      /\ (0 <= lt1 <= 1)%Q
                      /\ pbr_mean metrics !! index_name = Some (Some (mean series))
                      /\ pbr_median metrics !! index_name = Some (Some (median series))
                end
         end.
Proof.
  intros Hi Hp. unfold compute_pbr_stats. rewrite Hi, Hp. cbn [negb].
  eexists. split; [reflexivity|]. intros i.
  rewrite (group_lookup pbr_count pbr_step _ _ pbr_step_count).
  rewrite (group_lookup pbr_lt1 pbr_step _ _ pbr_step_lt1).
  rewrite (group_lookup pbr_mean pbr_step _ _ pbr_step_mean).
  rewrite (group_lookup pbr_median pbr_step _ _ pbr_step_median).
  unfold pbr_series.
  destruct (rows (index_group dataset i)) eqn:R; [repeat split; reflexivity|].
  split; [reflexivity|].
  destruct (numeric_values (index_group dataset i) "pbr") as [|x series] eqn:S;
    [repeat split; reflexivity|].
  eexists. split; [reflexivity|]. split; [|split; reflexivity].
  apply ratio_bounds; [|simpl; lia].
  apply length_List_filter_le.
Qed.

End StatisticsFurther.

(** *** Quantiles *)

Lemma Qle_bool_total (x y : Q) : Qle_bool x y = true \/ Qle_bool y x = true.
Proof.
  destruct (Qlt_le_dec y x) as [Hlt|Hle].
  - right. apply Qle_bool_iff, Qlt_le_weak, Hlt.
  - left. apply Qle_bool_iff, Hle.
Qed.

Lemma Qle_bool_trans (x y z : Q) :
  Qle_bool x y = true -> Qle_bool y z = true -> Qle_bool x z = true.
Proof. rewrite !Qle_bool_iff. apply Qle_trans. Qed.

Lemma sorted_series (series : list Q) :
  StronglySorted (fun a b => Qle_bool a b = true) (sort_values Qle_bool series).
Proof. apply sort_values_StronglySorted; [apply Qle_bool_total|apply Qle_bool_trans]. Qed.

Lemma length_sort_values {A} (leb : A -> A -> bool) (l : list A) :
  List.length (sort_values leb l) = List.length l.
Proof. apply Permutation_length, sort_values_Permutation. Qed.

Lemma sorted_nth_le (l : list Q) :
  StronglySorted (fun a b => Qle_bool a b = true) l ->
  forall i j, (i <= j)%nat -> (j < List.length l)%nat -> (nth i l 0 <= nth j l 0)%Q.
Proof.
  induction 1 as [|x l Sl IH Hx]; intros i j Hij Hj; [simpl in Hj; lia|].
  destruct j as [|j].
  - assert (i = 0%nat) as -> by lia. apply Qle_refl.
  - destruct i as [|i].
    + simpl. rewrite Forall_forall in Hx. apply Qle_bool_iff, Hx.
      apply list_elem_of_In, nth_In. simpl in Hj. lia.
    + simpl. apply IH; simpl in Hj; lia.
Qed.

Lemma Qceiling_le_floor_succ (x : Q) : (Qceiling x <= Qfloor x + 1)%Z.
Proof.
  rewrite <- (Qceiling_Z (Qfloor x + 1)).
  apply Qceiling_resp_le, Qlt_le_weak, Qlt_floor.
Qed.

Lemma Qfloor_le_ceiling (x : Q) : (Qfloor x <= Qceiling x)%Z.
Proof.
  rewrite Zle_Qle. apply Qle_trans with x; [apply Qfloor_le|apply Qle_ceiling].
Qed.

Lemma Qfloor_nonneg (x : Q) : (0 <= x)%Q -> (0 <= Qfloor x)%Z.
Proof. intros Hx. rewrite <- (Qfloor_Z 0). apply Qfloor_resp_le, Hx. Qed.

Lemma Qceiling_bound (x : Q) (n : Z) : (x <= inject_Z n)%Q -> (Qceiling x <= n)%Z.
Proof. intros Hx. rewrite <- (Qceiling_Z n). apply Qceiling_resp_le, Hx. Qed.

Section Interpolation.
Variable sorted : list Q.
Hypothesis Hsorted : StronglySorted (fun a b => Qle_bool a b = true) sorted.

Lemma interpolate_between (p : Q) :
  (0 <= p)%Q -> (p <= Qnat (List.length sorted - 1))%Q -> (0 < List.length sorted)%nat ->
  (nth (Z.to_nat (Qfloor p)) sorted 0 <= interpolate sorted p
   <= nth (Z.to_nat (Qceiling p)) sorted 0)%Q.
Proof.
  intros H0 Hn Hlen. unfold interpolate.
  pose proof (Qfloor_nonneg p H0) as Hf0.
  pose proof (Qfloor_le_ceiling p) as Hfc.
  assert (Hc : (Qceiling p <= Z.of_nat (List.length sorted - 1))%Z)
    by (apply Qceiling_bound, Hn).
  assert (Hab : (nth (Z.to_nat (Qfloor p)) sorted 0
                 <= nth (Z.to_nat (Qceiling p)) sorted 0)%Q).
  { apply sorted_nth_le; [exact Hsorted|lia|lia]. }
  set (a := nth (Z.to_nat (Qfloor p)) sorted 0%Q) in *.
  set (b := nth (Z.to_nat (Qceiling p)) sorted 0%Q) in *.
  pose proof (Qfloor_le p) as Hfl. pose proof (Qlt_floor p) as Hlt.
  rewrite inject_Z_plus in Hlt. change (inject_Z 1) with 1%Q in Hlt.
  assert (Hprod : (0 <= (p - inject_Z (Qfloor p)) * (b - a))%Q)
    by (apply Qmult_le_0_compat; lra).
  assert (Hprod1 : ((p - inject_Z (Qfloor p)) * (b - a) <= 1 * (b - a))%Q)
    by (apply Qmult_le_compat_r; lra).
  split; lra.
Qed.

Lemma interpolate_monotone (p1 p2 : Q) :
  (0 <= p1)%Q -> (p1 <= p2)%Q -> (p2 <= Qnat (List.length sorted - 1))%Q ->
  (0 < List.length sorted)%nat ->
  (interpolate sorted p1 <= interpolate sorted p2)%Q.
Proof.
  intros H0 H12 Hn Hlen.
  assert (H02 : (0 <= p2)%Q) by (apply Qle_trans with p1; assumption).
  assert (H1n : (p1 <= Qnat (List.length sorted - 1))%Q)
    by (apply Qle_trans with p2; assumption).
  pose proof (Qfloor_nonneg p1 H0) as Hf1.
  pose proof (Qfloor_resp_le p1 p2 H12) as Hff.
  pose proof (Qceiling_resp_le p1 p2 H12) as Hcc.
  pose proof (Qfloor_le_ceiling p1) as Hfc1.
  pose proof (Qfloor_le_ceiling p2) as Hfc2.
  pose proof (Qceiling_le_floor_succ p1) as Hcs1.
  pose proof (Qceiling_le_floor_succ p2) as Hcs2.
  assert (Hc2 : (Qceiling p2 <= Z.of_nat (List.length sorted - 1))%Z)
    by (apply Qceiling_bound, Hn).
  destruct (Z_le_gt_dec (Qceiling p1) (Qfloor p2)) as [Hle|Hgt].
  - apply Qle_trans with (nth (Z.to_nat (Qceiling p1)) sorted 0%Q);
      [apply interpolate_between; assumption|].
    apply Qle_trans with (nth (Z.to_nat (Qfloor p2)) sorted 0%Q);
      [|apply interpolate_between; assumption].
    apply sorted_nth_le; [exact Hsorted|lia|lia].
  - assert (Ef : Qfloor p2 = Qfloor p1) by lia.
    assert (Ec : Qceiling p2 = Qceiling p1) by lia.
    unfold interpolate. rewrite Ef, Ec.
    assert (Hab : (nth (Z.to_nat (Qfloor p1)) sorted 0
                   <= nth (Z.to_nat (Qceiling p1)) sorted 0)%Q).
    { apply sorted_nth_le; [exact Hsorted|lia|lia]. }
    assert (Hprod : ((p1 - inject_Z (Qfloor p1))
                       * (nth (Z.to_nat (Qceiling p1)) sorted 0
                          - nth (Z.to_nat (Qfloor p1)) sorted 0)
                     <= (p2 - inject_Z (Qfloor p1))
                          * (nth (Z.to_nat (Qceiling p1)) sorted 0
                             - nth (Z.to_nat (Qfloor p1)) sorted 0))%Q)
      by (apply Qmult_le_compat_r; lra).
    lra.
Qed.

End Interpolation.

Lemma quantile_monotone (series : list Q) (q1 q2 : Q) :
  series <> [] -> (0 <= q1)%Q -> (q1 <= q2)%Q -> (q2 <= 1)%Q ->
  (quantile series q1 <= quantile series q2)%Q.
Proof.
  intros Hs H0 H12 H1.
  assert (Hlen : (0 < List.length series)%nat) by (destruct series; [congruence|simpl; lia]).
  assert (Hk : (0 <= Qnat (List.length series - 1))%Q).
  { unfold Qnat. rewrite <- (Zle_Qle 0). lia. }
  change (quantile series q1) with
    (interpolate (sort_values Qle_bool series) (q1 * Qnat (List.length series - 1))).
  change (quantile series q2) with
    (interpolate (sort_values Qle_bool series) (q2 * Qnat (List.length series - 1))).
  apply interpolate_monotone.
  - apply sorted_series.
  - apply Qmult_le_0_compat; assumption.
  - apply Qmult_le_compat_r; assumption.
  - rewrite length_sort_values.
    rewrite <- (Qmult_1_l (Qnat (List.length series - 1))) at 2.
    apply Qmult_le_compat_r; assumption.
  - rewrite length_sort_values. exact Hlen.
Qed.

Lemma Qfloor_eq (x : Q) (z : Z) :
  (inject_Z z <= x)%Q -> (x < inject_Z (z + 1))%Q -> Qfloor x = z.
Proof.
  intros Hle Hlt. apply Z.le_antisymm.
  - apply Z.lt_succ_r. rewrite Zlt_Qlt. unfold Z.succ.
    apply Qle_lt_trans with x; [apply Qfloor_le|exact Hlt].
  - rewrite <- (Qfloor_Z z). apply Qfloor_resp_le, Hle.
Qed.

Lemma Qceiling_eq (x : Q) (z : Z) :
  (inject_Z (z - 1) < x)%Q -> (x <= inject_Z z)%Q -> Qceiling x = z.
Proof.
  intros Hlt Hle. apply Z.le_antisymm.
  - apply Qceiling_bound, Hle.
  - assert (Hz : (z - 1 < Qceiling x)%Z); [|lia].
    rewrite Zlt_Qlt. apply Qlt_le_trans with x; [exact Hlt|apply Qle_ceiling].
Qed.

Lemma Qnat_double (m : nat) : (Qnat (2 * m) == 2 * Qnat m)%Q.
Proof. unfold Qnat. rewrite Nat2Z.inj_mul, inject_Z_mult. reflexivity. Qed.

(** The middle quantile is the median. *)
Lemma quantile_half_median (series : list Q) :
  series <> [] -> (quantile series 0.5 == median series)%Q.
Proof.
  intros Hs. unfold quantile, median.
  set (sorted := sort_values Qle_bool series).
  assert (Hlen : (0 < List.length series)%nat) by (destruct series; [congruence|simpl; lia]).
  destruct (Nat.Even_or_Odd (List.length series)) as [[m Hm]|[m Hm]].
  - (* an even number of values: 2 * m with 0 < m *)
    destruct m as [|m]; [lia|].
    assert (Hpos : (0.5 * Qnat (List.length series - 1) == Qnat m + 0.5)%Q).
    { replace (List.length series - 1)%nat with (S (2 * m)) by lia.
      rewrite Qnat_S, Qnat_double. lra. }
    rewrite (proj2 (Nat.even_spec _)) by (exists (S m); exact Hm).
    replace (List.length series / 2 - 1)%nat with m
      by (rewrite Hm, Nat.mul_comm, Nat.div_mul by lia; lia).
    replace (List.length series / 2)%nat with (S m)
      by (rewrite Hm, Nat.mul_comm, Nat.div_mul by lia; lia).
    assert (Ef : Qfloor (0.5 * Qnat (List.length series - 1)) = Z.of_nat m).
    { apply Qfloor_eq; [|rewrite inject_Z_plus]; rewrite Hpos; unfold Qnat;
        change (inject_Z 1) with 1%Q; lra. }
    assert (Ec : Qceiling (0.5 * Qnat (List.length series - 1)) = Z.of_nat (S m)).
    { apply Qceiling_eq; rewrite Hpos; unfold Qnat;
        replace (Z.of_nat (S m) - 1)%Z with (Z.of_nat m) by lia;
        rewrite ?Nat2Z.inj_succ; unfold Z.succ; rewrite ?inject_Z_plus;
        change (inject_Z 1) with 1%Q; lra. }
    rewrite Ef, Ec, !Nat2Z.id, Hpos. unfold Qnat. field.
  - (* an odd number of values: 2 * m + 1 *)
    assert (Hpos : (0.5 * Qnat (List.length series - 1) == Qnat m)%Q).
    { replace (List.length series - 1)%nat with (2 * m)%nat by lia.
      rewrite Qnat_double. lra. }
    assert (Heven : Nat.even (List.length series) = false).
    { rewrite <- Nat.negb_odd. apply negb_false_iff, Nat.odd_spec. exists m. exact Hm. }
    rewrite Heven.
    replace (List.length series / 2)%nat with m.
    2:{ rewrite Hm. apply (Nat.div_unique _ 2 m 1); lia. }
    assert (Ef : Qfloor (0.5 * Qnat (List.length series - 1)) = Z.of_nat m).
    { apply Qfloor_eq; [|rewrite inject_Z_plus]; rewrite Hpos; unfold Qnat;
        change (inject_Z 1) with 1%Q; lra. }
    assert (Ec : Qceiling (0.5 * Qnat (List.length series - 1)) = Z.of_nat m).
    { apply Qceiling_eq; rewrite Hpos; unfold Qnat; [|apply Qle_refl].
      unfold Z.sub. rewrite inject_Z_plus, inject_Z_opp. change (inject_Z 1) with 1%Q. lra. }
    rewrite Ef, Ec, !Nat2Z.id. ring.
Qed.

Section RoeFurther.
Context `{Runtime}.

Lemma set_quantiles_lookup (index_name : string) (value : Q -> option Q)
    (qs : gmap string (gmap string (option Q))) :
  set_quantiles index_name value qs !! "25"
    = Some (<[index_name := value 0.25%Q]> (default ∅ (qs !! "25")))
  /\ set_quantiles index_name value qs !! "50"
    = Some (<[index_name := value 0.5%Q]> (default ∅ (qs !! "50")))
  /\ set_quantiles index_name value qs !! "75"
    = Some (<[index_name := value 0.75%Q]> (default ∅ (qs !! "75"))).
Proof.
  unfold set_quantiles, QUANTILES. cbn [foldl fst snd].
  repeat split;
    repeat first [ rewrite lookup_insert_eq | rewrite lookup_insert_ne by discriminate ];
    reflexivity.
Qed.

Lemma roe_step_quantiles metrics k g :
  roe_quantiles (roe_step metrics (k, g)) !! "25"
    = Some (<[k := quantile_value 0.25 g]> (default ∅ (roe_quantiles metrics !! "25")))
  /\ roe_quantiles (roe_step metrics (k, g)) !! "50"
    = Some (<[k := quantile_value 0.5 g]> (default ∅ (roe_quantiles metrics !! "50")))
  /\ roe_quantiles (roe_step metrics (k, g)) !! "75"
    = Some (<[k := quantile_value 0.75 g]> (default ∅ (roe_quantiles metrics !! "75"))).
Proof.
  unfold roe_step, quantile_value.
  destruct (numeric_values g "roe"); cbn [List.length roe_quantiles];
    apply set_quantiles_lookup.
Qed.

Lemma roe_step_median metrics k g :
  roe_median (roe_step metrics (k, g))
    = <[k := match numeric_values g "roe" with
             | [] => None
             | series => Some (median series)
             end]> (roe_median metrics).
Proof. unfold roe_step. destruct (numeric_values g "roe"); reflexivity. Qed.

Lemma roe_loop_quantiles groups : forall metrics,
  (exists q25 q50 q75,
     roe_quantiles metrics !! "25" = Some q25
     /\ roe_quantiles metrics !! "50" = Some q50
     /\ roe_quantiles metrics !! "75" = Some q75) ->
  exists q25 q50 q75,
    roe_quantiles (foldl roe_step metrics groups) !! "25" = Some q25
    /\ roe_quantiles (foldl roe_step metrics groups) !! "50" = Some q50
    /\ roe_quantiles (foldl roe_step metrics groups) !! "75" = Some q75.
Proof.
  induction groups as [|[k g] groups IH]; intros metrics Hm; [exact Hm|].
  cbn [foldl]. apply IH.
  destruct (roe_step_quantiles metrics k g) as (E1 & E2 & E3). eauto 10.
Qed.

Lemma roe_quantile_lookup (name : string) (q : Q) (dataset : DataFrame) metrics0 :
  (forall metrics k g,
     roe_quantiles (roe_step metrics (k, g)) !! name
       = Some (<[k := quantile_value q g]> (default ∅ (roe_quantiles metrics !! name)))) ->
  forall i,
    default ∅ (roe_quantiles (foldl roe_step metrics0 (groupby_index dataset)) !! name) !! i
      = match rows (index_group dataset i) with
        | [] => default ∅ (roe_quantiles metrics0 !! name) !! i
        | _ => Some (quantile_value q (index_group dataset i))
        end.
Proof.
  intros Hstep i.
  apply (group_lookup (fun m => default ∅ (roe_quantiles m !! name)) roe_step
           (quantile_value q) dataset).
  intros s k g. rewrite Hstep. reflexivity.
Qed.

(** X10: the ROE module reports the index names of the table under its
    median and under each of its three quantiles.  For an index without a
    [roe] value all four are null; otherwise they are numbers, the quantiles
    are in order, and the middle one is the median. *)
Theorem compute_roe_stats_groups (dataset : DataFrame) :
  has_column dataset "index" = true ->
  has_column dataset "roe" = true ->
  exists metrics q25 q50 q75,
    compute_roe_stats dataset = Ok metrics
    /\ roe_quantiles metrics !! "25" = Some q25
    /\ roe_quantiles metrics !! "50" = Some q50
    /\ roe_quantiles metrics !! "75" = Some q75
    /\ forall index_name,
         match rows (index_group dataset index_name) with
         | [] =>
             roe_median metrics !! index_name = None
             /\ q25 !! index_name = None /\ q50 !! index_name = None
             /\ q75 !! index_name = None
         | _ =>
             match roe_series dataset index_name with
             | [] =>
                 roe_median metrics !! index_name = Some None
                 /\ q25 !! index_name = Some None /\ q50 !! index_name = Some None
                 /\ q75 !! index_name = Some None
             | series =>
                 exists a b c,
                   roe_median metrics !! index_name = Some (Some (median series))
                   /\ q25 !! index_name = Some (Some a)
                   /\ q50 !! index_name = Some (Some b)
                   /\ q75 !! index_name = Some (Some c)
                   /\ (a <= b)%Q /\ (b <= c)%Q /\ (b == median series)%Q
             end
         end.
Proof.
  intros Hi Hr. unfold compute_roe_stats. rewrite Hi, Hr. cbn [negb].
  set (metrics0 := {| roe_median := ∅;
                      roe_quantiles := list_to_map ((fun kq => (kq.1, ∅)) <$> QUANTILES);
                      roe_count := ∅ |}).
  destruct (roe_loop_quantiles (groupby_index dataset) metrics0)
    as (q25 & q50 & q75 & E25 & E50 & E75).
  { exists ∅, ∅, ∅. repeat split; reflexivity. }
  exists (foldl roe_step metrics0 (groupby_index dataset)), q25, q50, q75.
  split; [reflexivity|]. split; [exact E25|]. split; [exact E50|]. split; [exact E75|].
  intros i.
  pose proof (roe_quantile_lookup "25" 0.25 dataset metrics0
                (fun m k g => proj1 (roe_step_quantiles m k g)) i) as L25.
  pose proof (roe_quantile_lookup "50" 0.5 dataset metrics0
                (fun m k g => proj1 (proj2 (roe_step_quantiles m k g))) i) as L50.
  pose proof (roe_quantile_lookup "75" 0.75 dataset metrics0
                (fun m k g => proj2 (proj2 (roe_step_quantiles m k g))) i) as L75.
  rewrite E25 in L25. rewrite E50 in L50. rewrite E75 in L75.
  cbn [default from_option id] in L25, L50, L75.
  rewrite (group_lookup roe_median roe_step _ _ roe_step_median).
  unfold roe_series, quantile_value in *.
  destruct (rows (index_group dataset i)) eqn:R.
  { rewrite L25, L50, L75. repeat split; reflexivity. }
  destruct (numeric_values (index_group dataset i) "roe") as [|x series] eqn:S.
  { rewrite L25, L50, L75. repeat split; reflexivity. }
  do 3 eexists. split; [reflexivity|]. split; [exact L25|]. split; [exact L50|].
  split; [exact L75|]. split; [|split].
  - apply quantile_monotone; [discriminate|lra..].
  - apply quantile_monotone; [discriminate|lra..].
  - apply quantile_half_median. discriminate.
Qed.

End RoeFurther.

(** *** Concentration *)








Section ConcentrationFurther.
Context `{Runtime}.









End ConcentrationFurther.

(** ** Writing the table and reading it back *)

Lemma omap_as_dict_YDict (records : list dict) :
  omap as_dict (YDict <$> records) = records.
Proof. induction records as [|r rs IH]; [reflexivity|]. cbn. rewrite IH. reflexivity. Qed.

Lemma first_seen_known (seen labels : list string) :
  (forall label, label ∈ labels -> label ∈ seen) -> first_seen seen labels = [].
Proof.
  induction labels as [|x rest IH]; intros Hall; [reflexivity|].
  cbn [first_seen]. rewrite bool_decide_eq_true_2 by (apply Hall; left).
  apply IH. intros label Hl. apply Hall. right. exact Hl.
Qed.

Lemma first_seen_fresh (labels : list string) : forall seen rest,
  NoDup labels ->
  (forall label, label ∈ labels -> label ∉ seen) ->
  first_seen seen (labels ++ rest)
    = labels ++ first_seen (rev labels ++ seen) rest.
Proof.
  induction labels as [|x labels IH]; intros seen rest Hnd Hfresh; [reflexivity|].
  apply NoDup_cons in Hnd as [Hx Hnd].
  cbn [app first_seen]. rewrite bool_decide_eq_false_2 by (apply Hfresh; left).
  f_equal. rewrite IH; [|exact Hnd|].
  - cbn [rev]. rewrite <- app_assoc. reflexivity.
  - intros label Hl Hin. apply elem_of_cons in Hin as [->|Hin]; [exact (Hx Hl)|].
    apply (Hfresh label); [right; exact Hl|exact Hin].
Qed.

Lemma cell_written (labels : list string) (row : gmap string yaml) (label : string) :
  label ∈ labels ->
  cell (list_to_map ((fun l => (l, cell row l)) <$> labels)) label = cell row label.
Proof.
  intros Hl. unfold cell at 1.
  induction labels as [|x labels IH]; [exfalso; exact (not_elem_of_nil _ Hl)|].
  cbn [fmap list_fmap list_to_map foldr]. destruct (decide (x = label)) as [->|Hne].
  - rewrite lookup_insert_eq. reflexivity.
  - rewrite lookup_insert_ne by exact Hne. apply IH.
    apply elem_of_cons in Hl as [->|Hl]; [congruence|exact Hl].
Qed.

Lemma keys_written (labels : list string) (row : gmap string yaml) :
  ((fun l => (l, cell row l)) <$> labels).*1 = labels.
Proof. induction labels as [|x labels IH]; [reflexivity|]. cbn. f_equal. exact IH. Qed.

(** X13: what [write_output] writes of a table with a row, [load_dataframe]
    reads back with the same columns in the same order, the same number of
    rows in the same order, and the same cell under every column. *)
Theorem load_dataframe_written (generated_at : string) (dataset : DataFrame) :
  NoDup (columns dataset) ->
  rows dataset <> [] ->
  exists loaded,
    load_dataframe (write_output generated_at dataset) = Ok loaded
    /\ columns loaded = columns dataset
    /\ List.length (rows loaded) = List.length (rows dataset)
    /\ forall (i : nat) row,
         rows dataset !! i = Some row ->
         exists row',
           rows loaded !! i = Some row'
           /\ forall label, label ∈ columns dataset -> cell row' label = cell row label.
Proof.
  intros Hnd Hrows. eexists. split.
  { cbn [load_dataframe write_output dict_get String.eqb Ascii.eqb Bool.eqb].
    rewrite omap_as_dict_YDict. reflexivity. }
  cbn [columns rows frame_of_records]. unfold to_dict. split; [|split].
  - destruct (rows dataset) as [|row0 others]; [congruence|].
    cbn [fmap list_fmap mbind list_bind].
    change (list_fmap _ _ ?f ?l) with (f <$> l).
    rewrite keys_written.
    rewrite first_seen_fresh; [|exact Hnd|intros label _; apply not_elem_of_nil].
    rewrite first_seen_known; [apply app_nil_r|].
    intros label Hl. rewrite app_nil_r, list_elem_of_In, <- in_rev, <- list_elem_of_In.
    apply list_elem_of_bind in Hl as (r & Hl & Hr).
    apply list_elem_of_fmap in Hr as (row & -> & _).
    rewrite keys_written in Hl. exact Hl.
  - rewrite !length_fmap. reflexivity.
  - intros i row Hi. eexists. split.
    + rewrite !list_lookup_fmap, Hi. reflexivity.
    + intros label Hl. apply cell_written. exact Hl.
Qed.

Section ReadingFurther.
Context `{Runtime}.

(** X14: a table without rows is written without its columns: read back, it
    has no column, and every statistics module refuses it. *)
Theorem load_dataframe_written_empty (generated_at : string) (dataset : DataFrame) :
  rows dataset = [] ->
  exists loaded,
    load_dataframe (write_output generated_at dataset) = Ok loaded
    /\ columns loaded = [] /\ rows loaded = []
    /\ is_value_error (compute_pbr_stats loaded) = true
    /\ is_value_error (compute_roe_stats loaded) = true
    /\ is_value_error (compute_concentration_metrics loaded) = true.
Proof.
  intros Hrows. eexists. split.
  { cbn [load_dataframe write_output dict_get String.eqb Ascii.eqb Bool.eqb].
    rewrite omap_as_dict_YDict. unfold to_dict. rewrite Hrows. reflexivity. }
  repeat split.
Qed.

End ReadingFurther.

(** The records of the grouped shape: every mapping of a list-valued group,
    with the index key set. *)
Lemma flatten_grouped_elem (d : dict) (e : yaml) :
  e ∈ flatten_grouped d ->
  exists group entries item,
    (group, YList entries) ∈ d /\ YDict item ∈ entries
    /\ e = YDict (setdefault_index group item).
Proof.
  unfold flatten_grouped. intros He.
  apply list_elem_of_In, in_flat_map in He as ([group v] & Hd & He).
  apply list_elem_of_In in Hd, He. cbn [fst snd] in He.
  destruct v as [| | | |entries|]; try (exfalso; exact (not_elem_of_nil _ He)).
  apply list_elem_of_fmap in He as (item & -> & Hitem).
  apply list_elem_of_omap in Hitem as (v & Hv & Ev).
  destruct v; try discriminate. injection Ev as ->.
  exists group, entries, item. auto.
Qed.

Lemma flatten_grouped_records (d : dict) :
  exists items, flatten_grouped d = YDict <$> items.
Proof.
  unfold flatten_grouped. induction d as [|[group v] d (items & IH)];
    [exists []; reflexivity|].
  cbn [flat_map fst snd]. rewrite IH.
  destruct v as [| | | |entries|]; try (exists items; reflexivity).
  exists ((setdefault_index group <$> omap as_dict entries) ++ items).
  rewrite fmap_app, <- list_fmap_compose. reflexivity.
Qed.

Lemma dict_get_app (d1 d2 : dict) (k : string) :
  dict_get (d1 ++ d2) k
    = match dict_get d1 k with Some v => Some v | None => dict_get d2 k end.
Proof.
  induction d1 as [|[k' v] d1 IH]; [reflexivity|].
  cbn [app dict_get]. destruct (String.eqb k' k); [reflexivity|exact IH].
Qed.

Lemma setdefault_index_has (group : string) (item : dict) :
  dict_has (setdefault_index group item) "index" = true.
Proof.
  unfold setdefault_index. destruct (dict_has item "index") eqn:E; [exact E|].
  unfold dict_has in *. rewrite dict_get_app.
  destruct (dict_get item "index"); reflexivity.
Qed.

Lemma dict_has_key (d : dict) (k : string) : dict_has d k = true -> k ∈ d.*1.
Proof.
  unfold dict_has. induction d as [|[k' v] d IH]; [discriminate|].
  cbn [dict_get fmap list_fmap fst]. destruct (String.eqb k' k) eqn:E.
  - apply String.eqb_eq in E as ->. intros _. left.
  - intros Hd. right. apply IH, Hd.
Qed.

Lemma first_seen_elem_of (labels : list string) : forall seen label,
  label ∈ first_seen seen labels <-> label ∈ labels /\ label ∉ seen.
Proof.
  induction labels as [|x rest IH]; intros seen label; cbn [first_seen].
  - split; [intros Hl; exfalso; exact (not_elem_of_nil _ Hl)|].
    intros [Hl _]. exfalso. exact (not_elem_of_nil _ Hl).
  - destruct (bool_decide (x ∈ seen)) eqn:E.
    + apply bool_decide_eq_true in E. rewrite IH, elem_of_cons.
      split; [tauto|]. intros [[->|Hl] Hs]; [contradiction|tauto].
    + apply bool_decide_eq_false in E. rewrite !elem_of_cons, IH, elem_of_cons.
      split.
      * intros [->|[Hl Hs]]; [tauto|]. tauto.
      * intros [[->|Hl] Hs]; [tauto|].
        destruct (decide (label = x)) as [->|Hne]; [tauto|]. right. tauto.
Qed.

(** The rows that a mapping without a list under [records] loads as. *)
Lemma load_dataframe_mapping_rows (d : dict) :
  (forall records, dict_get d "records" <> Some (YList records)) ->
  exists loaded,
    load_dataframe (YDict d) = Ok loaded
    /\ rows loaded <> []
    /\ match flatten_grouped d with
       | [] => rows loaded = [list_to_map d] /\ columns loaded = first_seen [] d.*1
       | grouped =>
           List.length (rows loaded) = List.length grouped
           /\ has_column loaded "index" = true
       end.
Proof.
  intros Hrecords. eexists. split; [reflexivity|].
  cbn zeta.
  assert (Eraw : match dict_get d "records" with
                 | Some (YList records) => records
                 | _ => match flatten_grouped d with
                        | [] => [YDict d]
                        | grouped => grouped
                        end
                 end
                 = match flatten_grouped d with
                   | [] => [YDict d]
                   | grouped => grouped
                   end).
  { destruct (dict_get d "records") as [[| | | |records|]|]; try reflexivity.
    exfalso. exact (Hrecords records eq_refl). }
  rewrite Eraw. clear Eraw Hrecords.
  destruct (flatten_grouped_records d) as (items & Eitems).
  pose proof (flatten_grouped_elem d) as Helem. rewrite Eitems in Helem |- *.
  destruct items as [|item items].
  - cbn. rewrite app_nil_r. split; [discriminate|]. split; reflexivity.
  - cbn [fmap list_fmap]. change (list_fmap _ _ ?f ?l) with (f <$> l).
    change (YDict item :: (YDict <$> items)) with (YDict <$> (item :: items)).
    rewrite omap_as_dict_YDict. cbn [rows columns frame_of_records].
    split; [discriminate|]. split; [rewrite !length_fmap; reflexivity|].
    unfold has_column. apply bool_decide_eq_true_2, first_seen_elem_of.
    split; [|apply not_elem_of_nil].
    apply list_elem_of_bind. exists item. split; [|left].
    apply dict_has_key.
    destruct (Helem (YDict item)) as (group & entries & item' & _ & _ & E); [left|].
    injection E as ->. apply setdefault_index_has.
Qed.

(** X15: a mapping without a list under [records] always loads, and with at
    least one row.  When some group holds a mapping the table has one row for
    each such mapping and an [index] column; otherwise the whole mapping is the
    one row, so that the empty mapping loads as one row without any column (a
    frame of shape (1, 0), which pandas counts as empty). *)
Theorem load_dataframe_mapping (d : dict) :
  (forall records, dict_get d "records" <> Some (YList records)) ->
  exists loaded,
    load_dataframe (YDict d) = Ok loaded
    /\ rows loaded <> []
    /\ (d = [] -> columns loaded = [] /\ rows loaded = [∅])
    /\ match flatten_grouped d with
       | [] => rows loaded = [list_to_map d] /\ columns loaded = first_seen [] d.*1
       | grouped =>
           List.length (rows loaded) = List.length grouped
           /\ has_column loaded "index" = true
       end.
Proof.
  intros Hrecords.
  destruct (load_dataframe_mapping_rows d Hrecords) as (loaded & E & Hrows & Hshape).
  exists loaded. split; [exact E|]. split; [exact Hrows|]. split; [|exact Hshape].
  intros ->. cbn in Hshape. destruct Hshape as [-> ->]. split; reflexivity.
Qed.

(** [strip] leaves nothing to strip. *)
Lemma append_cons (a : ascii) (p s : string) :
  (String a p +:+ s)%string = String a (p +:+ s)%string.
Proof. reflexivity. Qed.

Lemma append_nil_l (s : string) : (EmptyString +:+ s)%string = s.
Proof. reflexivity. Qed.

Lemma append_nil_r (s : string) : (s +:+ EmptyString)%string = s.
Proof. induction s as [|a s IH]; [reflexivity|]. rewrite append_cons. f_equal. exact IH. Qed.

Lemma append_assoc (a b c : string) :
  ((a +:+ b) +:+ c)%string = (a +:+ (b +:+ c))%string.
Proof.
  induction a as [|x a IH]; [reflexivity|]. rewrite !append_cons. f_equal. exact IH.
Qed.

(** One step of the scan: either nothing is removed, or one white-space
    character is. *)
Lemma lstrip_bytes_step (backwards : bool) (s : string) :
  lstrip_bytes backwards s = s /\ leading_space backwards s = false
  \/ exists p r, s = (p +:+ r)%string /\ p <> EmptyString
       /\ leading_space backwards s = true
       /\ lstrip_bytes backwards s = lstrip_bytes backwards r.
Proof.
  destruct s as [|a [|b [|c s3]]]; cbn [lstrip_bytes leading_space].
  - left. split; reflexivity.
  - destruct (is_space a).
    + right. exists (String a ""), "". repeat split; discriminate.
    + left. split; reflexivity.
  - destruct (is_space a).
    + right. exists (String a ""), (String b ""). repeat split; discriminate.
    + destruct (if backwards then is_space2 b a else is_space2 a b).
      * right. exists (String a (String b "")), "". repeat split; discriminate.
      * left. split; reflexivity.
  - destruct (is_space a).
    + right. exists (String a ""), (String b (String c s3)). repeat split; discriminate.
    + destruct (if backwards then is_space2 b a else is_space2 a b).
      * right. exists (String a (String b "")), (String c s3). repeat split; discriminate.
      * destruct (if backwards then is_space3 c b a else is_space3 a b c).
        -- right. exists (String a (String b (String c ""))), s3. repeat split; discriminate.
        -- left. split; reflexivity.
Qed.

Lemma length_append (p r : string) :
  String.length (p +:+ r) = (String.length p + String.length r)%nat.
Proof. induction p as [|a p IH]; [reflexivity|]. rewrite append_cons. cbn. rewrite IH. reflexivity. Qed.

Lemma lstrip_bytes_spec (backwards : bool) (n : nat) : forall s,
  (String.length s <= n)%nat ->
  leading_space backwards (lstrip_bytes backwards s) = false
  /\ exists p, s = (p +:+ lstrip_bytes backwards s)%string.
Proof.
  induction n as [|n IH]; intros s Hn.
  - destruct s; [|cbn in Hn; lia]. split; [reflexivity|exists ""; reflexivity].
  - destruct (lstrip_bytes_step backwards s) as [[E L]|(p & r & -> & Hp & _ & E)].
    + rewrite E. split; [exact L|exists ""; reflexivity].
    + rewrite E. destruct (IH r) as [L (q & Hq)].
      { rewrite length_append in Hn. destruct p; [congruence|]. cbn in Hn. lia. }
      split; [exact L|]. exists (p +:+ q)%string.
      rewrite append_assoc, <- Hq. reflexivity.
Qed.

Lemma lstrip_bytes_clean (backwards : bool) (s : string) :
  leading_space backwards (lstrip_bytes backwards s) = false.
Proof. exact (proj1 (lstrip_bytes_spec backwards _ s (le_n _))). Qed.

Lemma lstrip_bytes_split (backwards : bool) (s : string) :
  exists p, s = (p +:+ lstrip_bytes backwards s)%string.
Proof. exact (proj2 (lstrip_bytes_spec backwards _ s (le_n _))). Qed.

Lemma lstrip_bytes_id (backwards : bool) (s : string) :
  leading_space backwards s = false -> lstrip_bytes backwards s = s.
Proof.
  intros L. destruct (lstrip_bytes_step backwards s) as [[E _]|(p & r & _ & _ & L' & _)];
    [exact E|congruence].
Qed.

Lemma leading_space_prefix (backwards : bool) (a b : string) :
  leading_space backwards (a +:+ b)%string = false -> leading_space backwards a = false.
Proof.
  destruct a as [|x [|y [|z a]]]; try reflexivity; rewrite ?append_cons;
    cbn [leading_space].
  - destruct (is_space x); [discriminate|reflexivity].
  - destruct (is_space x); [discriminate|]. cbn [orb].
    destruct (if backwards then is_space2 y x else is_space2 x y); [discriminate|].
    reflexivity.
  - exact id.
Qed.

Lemma rev_app_rev_app (s : string) : forall a b,
  String.rev_app (String.rev_app s a) b = String.rev_app a (s +:+ b)%string.
Proof.
  induction s as [|c s IH]; intros a b; [reflexivity|].
  rewrite append_cons. cbn [String.rev_app]. rewrite IH. reflexivity.
Qed.

Lemma rev_rev (s : string) : String.rev (String.rev s) = s.
Proof.
  unfold String.rev. rewrite rev_app_rev_app. cbn [String.rev_app]. apply append_nil_r.
Qed.

Lemma rev_app_append (p t acc : string) :
  String.rev_app (p +:+ t)%string acc = String.rev_app t (String.rev_app p acc).
Proof.
  revert acc. induction p as [|c p IH]; intros acc; [reflexivity|].
  rewrite append_cons. cbn [String.rev_app]. apply IH.
Qed.

Lemma rev_app_acc (t : string) : forall acc,
  String.rev_app t acc = (String.rev t +:+ acc)%string.
Proof.
  unfold String.rev. induction t as [|c t IH]; intros acc; [reflexivity|].
  cbn [String.rev_app]. rewrite IH, (IH (String c EmptyString)), append_assoc.
  reflexivity.
Qed.

Lemma strip_stripped (s : string) : stripped (strip s).
Proof.
  unfold stripped, starts_clean, ends_clean, strip, lstrip.
  set (u := lstrip_bytes false s). set (t := lstrip_bytes true (String.rev u)). split.
  - destruct (lstrip_bytes_split true (String.rev u)) as (p & Hp). fold t in Hp.
    pose proof (lstrip_bytes_clean false s) as Hu. fold u in Hu.
    rewrite <- (rev_rev u), Hp in Hu. unfold String.rev at 1 in Hu.
    rewrite rev_app_append, rev_app_acc in Hu.
    exact (leading_space_prefix false _ _ Hu).
  - rewrite rev_rev. apply lstrip_bytes_clean.
Qed.

Lemma strip_idempotent (s : string) : stripped s -> strip s = s.
Proof.
  intros [Hs Hr]. unfold strip, lstrip.
  rewrite (lstrip_bytes_id false s Hs), (lstrip_bytes_id true _ Hr).
  apply rev_rev.
Qed.

(** The white space of Unicode is stripped as that of ASCII is: here the
    ideographic space U+3000 and the no-break space U+00A0. *)
Example strip_wide_space : strip " 　1001 　" = "1001".
Proof. reflexivity. Qed.

Section NormalizingFurther.
Context `{Runtime}.

Lemma financial_index_setdefault (group : string) (item : dict) :
  financial_index (setdefault_index group item)
    = if dict_has item "index" then financial_index item else Some group.
Proof.
  unfold setdefault_index. destruct (dict_has item "index") eqn:E; [reflexivity|].
  unfold financial_index, dict_has in *. rewrite dict_get_app.
  destruct (dict_get item "index"); [discriminate|reflexivity].
Qed.

(** X16: financial records grouped by index name always normalize, one row
    for each mapping of a list-valued group; a mapping with an [index] key
    keeps its own index, any other is filed under the name of its group, not
    under the default index. *)
Theorem _normalize_financials_grouped (d : dict) :
  dict_get d "records" = None ->
  exists fs,
    _normalize_financials (YDict d) = Ok fs
    /\ List.length fs = List.length (flatten_grouped d)
    /\ forall f, f ∈ fs ->
         exists group entries item,
           (group, YList entries) ∈ d /\ YDict item ∈ entries
           /\ f_index f = (if dict_has item "index" then financial_index item
                           else Some group).
Proof.
  intros Hrecords. unfold _normalize_financials. rewrite Hrecords.
  eexists. split; [reflexivity|].
  destruct (flatten_grouped_records d) as (items & Eitems).
  pose proof (flatten_grouped_elem d) as Helem. rewrite Eitems in Helem |- *.
  rewrite omap_as_dict_YDict. split.
  - rewrite length_zip_with_l_eq; [rewrite length_fmap; reflexivity|].
    rewrite to_datetime_length, length_fmap. reflexivity.
  - intros f Hf. apply elem_of_zip_with in Hf as (e & date & -> & He & _).
    destruct (Helem (YDict e)) as (group & entries & item & Hd & Hitem & E).
    { apply list_elem_of_fmap_2, He. }
    injection E as ->. exists group, entries, item.
    split; [exact Hd|]. split; [exact Hitem|].
    apply financial_index_setdefault.
Qed.

Lemma truthy_name_nonempty (v : option yaml) (s : string) :
  truthy_name v = Some s -> s <> "".
Proof.
  destruct v as [[| | |t| |]|]; try discriminate. cbn [truthy_name].
  destruct (String.eqb t "") eqn:E; [discriminate|].
  intros [= <-]. apply String.eqb_neq, E.
Qed.

Lemma constituent_record_index (index_name : option string) (entry : dict) :
  c_index (constituent_record index_name entry) <> "".
Proof.
  unfold constituent_record. cbn [c_index].
  destruct (truthy_name (dict_get entry "index")) eqn:E1;
    [exact (truthy_name_nonempty _ _ E1)|].
  destruct (truthy_name (YStr <$> index_name)) eqn:E2;
    [exact (truthy_name_nonempty _ _ E2)|].
  discriminate.
Qed.

(** What holds of every record holds of every row of the frame. *)
Lemma constituent_group_cases (P : constituent -> Prop) (index_name : option string)
    (entries : yaml) :
  (forall index_name entry, P (constituent_record index_name entry)) ->
  match constituent_group index_name entries with
  | Ok cs => Forall P cs
  | Raise e => exists message, e = ValueError message
  end.
Proof.
  intros HP.
  assert (Hrows : forall items : list yaml,
            Forall P (constituent_record index_name <$> omap as_dict items)).
  { intros items. apply Forall_fmap, Forall_forall. intros entry _. apply HP. }
  unfold constituent_group.
  destruct entries as [| | | |items|d]; try (eexists; reflexivity);
    [constructor|apply Hrows|].
  destruct (dict_get d "records") as [[| | | |items|d']|]; cbn [default from_option id];
    try (eexists; reflexivity); apply Hrows.
Qed.

Lemma constituent_groups_cases (P : constituent -> Prop)
    (pairs : list (option string * yaml)) :
  (forall index_name entry, P (constituent_record index_name entry)) ->
  match constituent_groups pairs with
  | Ok cs => Forall P cs
  | Raise e => exists message, e = ValueError message
  end.
Proof.
  intros HP. induction pairs as [|[index_name entries] pairs IH]; [constructor|].
  cbn [constituent_groups].
  pose proof (constituent_group_cases P index_name entries HP) as Hg.
  destruct (constituent_group index_name entries) as [cs|e]; cbn [mbind result_bind];
    [|exact Hg].
  destruct (constituent_groups pairs) as [more|e]; cbn [mbind result_bind]; [|exact IH].
  apply Forall_app. split; assumption.
Qed.

(** X17: whatever the document, [_normalize_constituents] either raises a
    [ValueError] or returns at least one row, every row under an index name
    that is not empty and with a code that has no white space at either
    end. *)
Theorem _normalize_constituents_cases (raw_data : yaml) :
  match _normalize_constituents raw_data with
  | Ok cs =>
      cs <> [] /\ Forall (fun c => c_index c <> "" /\ stripped (c_code c)) cs
  | Raise e => exists message, e = ValueError message
  end.
Proof.
  unfold _normalize_constituents.
  match goal with
  | |- context [constituent_groups ?pairs] =>
      pose proof (constituent_groups_cases
                    (fun c => c_index c <> "" /\ stripped (c_code c)) pairs) as Hg;
      destruct (constituent_groups pairs) as [cs|e]
  end; cbn [mbind result_bind].
  - destruct cs as [|c cs]; [eexists; reflexivity|]. split; [discriminate|].
    apply Hg. intros index_name entry.
    split; [apply constituent_record_index|apply strip_stripped].
  - apply Hg. intros index_name entry.
    split; [apply constituent_record_index|apply strip_stripped].
Qed.

(** X19: whatever the document, [_normalize_financials] either raises a
    [ValueError] or returns rows whose codes have no white space at either
    end. *)
Theorem _normalize_financials_cases (raw_data : yaml) :
  match _normalize_financials raw_data with
  | Ok fs => Forall (fun f => stripped (f_code f)) fs
  | Raise e => exists message, e = ValueError message
  end.
Proof.
  assert (Hrows : forall (normalized : list dict) (dates : list (option Z)),
            Forall (fun f => stripped (f_code f))
              (zip_with financial_record normalized dates)).
  { intros normalized dates. apply Forall_forall. intros f Hf.
    apply elem_of_zip_with in Hf as (e & date & -> & _ & _). apply strip_stripped. }
  unfold _normalize_financials.
  destruct raw_data as [| | | |items|d]; try (eexists; reflexivity);
    [constructor|apply Hrows|].
  destruct (dict_get d "records") as [[| | | |items|d']|];
    try (eexists; reflexivity); apply Hrows.
Qed.

End NormalizingFurther.

(** ** From the table to the narrative *)

Lemma json_get_elem (l : list (string * json)) (k : string) (v : json) :
  NoDup l.*1 -> (k, v) ∈ l -> json_get l k = Some v.
Proof.
  induction l as [|[k' v'] l IH]; intros Hnd Hin;
    [exfalso; exact (not_elem_of_nil _ Hin)|].
  cbn [fmap list_fmap fst] in Hnd. apply NoDup_cons in Hnd as [Hk Hnd].
  cbn [json_get]. apply elem_of_cons in Hin as [[= -> ->]|Hin].
  - rewrite String.eqb_refl. reflexivity.
  - destruct (String.eqb k' k) eqn:E; [|exact (IH Hnd Hin)].
    apply String.eqb_eq in E as ->. exfalso. apply Hk.
    apply (list_elem_of_fmap_2 fst) in Hin. exact Hin.
Qed.

Lemma json_get_absent (l : list (string * json)) (k : string) :
  k ∉ l.*1 -> json_get l k = None.
Proof.
  induction l as [|[k' v'] l IH]; intros Hk; [reflexivity|].
  cbn [json_get]. cbn [fmap list_fmap fst] in Hk.
  apply not_elem_of_cons in Hk as [Hne Hk].
  destruct (String.eqb k' k) eqn:E; [|exact (IH Hk)].
  apply String.eqb_eq in E. congruence.
Qed.

(** Looking a key up in a written mapping. *)
Lemma entries_lookup {A : Type} (leaf : A -> json) (m : gmap string A) (k : string) :
  exists items,
    entries leaf m = JDict items /\ json_get items k = leaf <$> m !! k.
Proof.
  eexists. split; [reflexivity|].
  set (l := (fun kv : string * A => (kv.1, leaf kv.2)) <$> map_to_list m).
  pose proof (sort_values_Permutation key_leb l) as Hperm.
  assert (Hkeys : l.*1 = (map_to_list m).*1).
  { unfold l. rewrite <- list_fmap_compose. reflexivity. }
  assert (Hnd : NoDup (sort_values key_leb l).*1).
  { rewrite Hperm, Hkeys. apply NoDup_fst_map_to_list. }
  destruct (m !! k) as [a|] eqn:E; cbn [fmap option_fmap option_map].
  - apply json_get_elem; [exact Hnd|]. rewrite Hperm. unfold l.
    apply list_elem_of_fmap. exists (k, a). split; [reflexivity|].
    apply elem_of_map_to_list, E.
  - apply json_get_absent. rewrite Hperm, Hkeys.
    intros Hin. apply list_elem_of_fmap in Hin as ([k' a] & -> & Hin).
    apply elem_of_map_to_list in Hin. cbn [fst] in E. congruence.
Qed.

(** What [safe_get] finds under a metric and an index name. *)
Lemma safe_get_entries {A : Type} (leaf : A -> json) (m : gmap string A)
    (doc : list (string * json)) (metric index_name : string) :
  json_get doc metric = Some (entries leaf m) ->
  (forall a, scalar (leaf a)) ->
  safe_get (JDict doc) [metric; index_name]
    = from_option leaf JNull (m !! index_name).
Proof.
  intros Hdoc Hleaf. cbn [safe_get]. rewrite Hdoc.
  destruct (entries_lookup leaf m index_name) as (items & -> & ->).
  destruct (m !! index_name) as [a|]; cbn; [|reflexivity].
  specialize (Hleaf a). destruct (leaf a); [reflexivity|reflexivity|contradiction].
Qed.

Lemma float_leaf_scalar (x : option Q) : scalar (float_leaf x).
Proof. destruct x; exact I. Qed.

Lemma JNum_scalar (x : Q) : scalar (JNum x).
Proof. exact I. Qed.

Lemma from_option_scalar {A : Type} (leaf : A -> json) (x : option A) :
  (forall a, scalar (leaf a)) -> scalar (from_option leaf JNull x).
Proof. intros Hleaf. destruct x; [apply Hleaf|exact I]. Qed.

Section PipelineFurther.
Context `{Runtime}.

(** X18: for every table with the columns the modules read, the three modules
    return, and from the documents they write, with any yield document whose
    compared entries are numbers or missing, both the narrative and the
    insights are produced, one insight per family; the caution on the top-10
    weight appears exactly when the table has no row of the primary index. *)
Theorem narrative_of_modules (dataset : DataFrame) (dy : json) :
  has_column dataset "index" = true ->
  has_column dataset "pbr" = true ->
  has_column dataset "roe" = true ->
  has_column dataset "sector" = true ->
  has_column dataset "weight" = true ->
  scalar (safe_get dy ["mean"; "yomiuri333"]) ->
  scalar (safe_get dy ["mean"; "topix"]) ->
  exists pbr roe concentration s insights,
    compute_pbr_stats dataset = Ok pbr
    /\ compute_roe_stats dataset = Ok roe
    /\ compute_concentration_metrics dataset = Ok concentration
    /\ derive_logic_summary (pbr_document pbr) (roe_document roe) dy
           (hhi_document concentration)
         = Ok s
    /\ build_insights (pbr_document pbr) (roe_document roe) dy
           (hhi_document concentration)
         = Ok insights
    /\ insight_family <$> insights = [PBR; ROE; DY; HHI]
    /\ (bullets_of TOP10 (cautions s) = [Top10Missing]
        <-> rows (index_group dataset "yomiuri333") = []).
Proof.
  intros Hi Hp Hr Hs Hw Hy Ht.
  pose proof (compute_concentration_metrics_Ok dataset Hi Hs Hw) as Ehhi.
  destruct (compute_pbr_stats dataset) as [pbr|e] eqn:Epbr;
    [|unfold compute_pbr_stats in Epbr; rewrite Hi, Hp in Epbr; discriminate].
  destruct (compute_roe_stats dataset) as [roe|e] eqn:Eroe;
    [|unfold compute_roe_stats in Eroe; rewrite Hi, Hr in Eroe; discriminate].
  rewrite Ehhi. clear Epbr Eroe Ehhi.
  exists pbr, roe. eexists.
  set (cm := foldl concentration_assign _ _).
  assert (Sp : forall i, scalar (safe_get (pbr_document pbr) ["lt1"; i])).
  { intros i. unfold pbr_document.
    rewrite (safe_get_entries float_leaf (pbr_lt1 pbr));
      [apply from_option_scalar|reflexivity|]; apply float_leaf_scalar. }
  assert (Sr : forall i, scalar (safe_get (roe_document roe) ["median"; i])).
  { intros i. unfold roe_document.
    rewrite (safe_get_entries float_leaf (roe_median roe));
      [apply from_option_scalar|reflexivity|]; apply float_leaf_scalar. }
  assert (Sh : forall i, scalar (safe_get (hhi_document cm) ["hhi"; i])).
  { intros i. unfold hhi_document.
    rewrite (safe_get_entries JNum (hhi cm));
      [apply from_option_scalar|reflexivity|]; apply JNum_scalar. }
  assert (Etop : is_none (safe_get (hhi_document cm) ["top10_weight"; "yomiuri333"])
                 = bool_decide (rows (index_group dataset "yomiuri333") = [])).
  { unfold hhi_document.
    rewrite (safe_get_entries JNum (top10_weight cm)); [|reflexivity|apply JNum_scalar].
    unfold cm.
    rewrite (group_lookup top10_weight concentration_assign
               (fun g => top10_value (resolved g)) _ (fun s k g => eq_refl)).
    destruct (rows (index_group dataset "yomiuri333")); reflexivity. }
  assert (Hrest : exists s insights,
            derive_logic_summary (pbr_document pbr) (roe_document roe) dy (hhi_document cm)
              = Ok s
            /\ build_insights (pbr_document pbr) (roe_document roe) dy (hhi_document cm)
                 = Ok insights
            /\ insight_family <$> insights = [PBR; ROE; DY; HHI]
            /\ (bullets_of TOP10 (cautions s) = [Top10Missing]
                <-> rows (index_group dataset "yomiuri333") = []));
    [|destruct Hrest as (s & insights & G1 & G2 & G3 & G4);
      exists s, insights; repeat (split; [first [reflexivity|assumption]|]); exact G4].
  pose proof (Sp "yomiuri333") as Sp1. pose proof (Sp "topix") as Sp2.
  pose proof (Sr "yomiuri333") as Sr1. pose proof (Sr "topix") as Sr2.
  pose proof (Sh "yomiuri333") as Sh1. pose proof (Sh "topix") as Sh2.
  clear Sp Sr Sh.
  generalize dependent (pbr_document pbr). generalize dependent (roe_document roe).
  generalize dependent (hhi_document cm). clear pbr roe cm.
  intros hhid Etop Sh1 Sh2 roed Sr1 Sr2 pbrd Sp1 Sp2.
  assert (Hlogic : exists s,
            derive_logic_summary pbrd roed dy hhid = Ok s
            /\ bullets_of TOP10 (cautions s)
                 = if is_none (safe_get hhid ["top10_weight"; "yomiuri333"])
                   then [Top10Missing] else []).
  { narrative_cases pbrd roed dy hhid; try scalar_clash;
      (eexists; split; [reflexivity|]);
      unfold top10_bullet;
      destruct (is_none (safe_get hhid ["top10_weight"; "yomiuri333"])); reflexivity. }
  destruct Hlogic as (s & Es & Etop10).
  assert (Hinsights : exists insights,
            build_insights pbrd roed dy hhid = Ok insights
            /\ insight_family <$> insights = [PBR; ROE; DY; HHI]).
  { revert Es. narrative_cases pbrd roed dy hhid; try discriminate; intros _;
      insight_cases; (eexists; split; reflexivity). }
  destruct Hinsights as (insights & Ei & Ef).
  exists s, insights. repeat (split; [first [reflexivity|assumption]|]).
  rewrite Etop10, Etop.
  destruct (rows (index_group dataset "yomiuri333")) eqn:R.
  - rewrite bool_decide_eq_true_2 by reflexivity. tauto.
  - rewrite bool_decide_eq_false_2 by discriminate. split; discriminate.
Qed.

End PipelineFurther.

(** ** Template filters *)

(** X20: [format_percent] reads a number up to 1 as a ratio and a greater one
    as a percentage, so a ratio above 0.01 and the percentage of the same
    figure are rendered alike: 0.5 and 50 both give 50. *)
Theorem format_percent_ratio_or_percentage (x : Q) (digits : nat) :
  (0.01 < x)%Q ->
  (x <= 1)%Q ->
  format_percent (Number x) digits = format_percent (Number (x * 100)) digits.
Proof.
  intros Hlow Hhigh. unfold format_percent. cbn [is_missing float].
  assert (E1 : Qle_bool x 1 = true) by (apply Qle_bool_iff; exact Hhigh).
  assert (E2 : Qle_bool (x * 100) 1 = false).
  { destruct (Qle_bool (x * 100) 1) eqn:E; [|reflexivity].
    apply Qle_bool_iff in E. lra. }
  rewrite E1, E2. reflexivity.
Qed.

(** X20, an instance. *)
Lemma format_percent_ratio_or_percentage_sample :
  format_percent (Number 0.5) 1 = format_percent (Number (0.5 * 100)) 1.
Proof.
  apply (format_percent_ratio_or_percentage 0.5 1);
    [reflexivity|unfold Qle; simpl; lia].
Defined.

(** ** Instances *)

(** X3, an instance: the documents in which the indices tie. *)
Lemma build_insights_after_logic_sample :
  exists insights,
    build_insights RenderSample.pbr_tie RenderSample.roe_tie RenderSample.dy_tie
      RenderSample.hhi_tie = Ok insights
    /\ insight_family <$> insights = [PBR; ROE; DY; HHI].
Proof.
  apply (build_insights_after_logic RenderSample.pbr_tie RenderSample.roe_tie
           RenderSample.dy_tie RenderSample.hhi_tie tie_summary).
  reflexivity.
Defined.

(** X4, an instance: at a tie the PBR insight favours the primary index and
    the PBR bullet is a weakness. *)
Lemma insights_agree_with_logic_sample :
  insight_favours ROE FurtherSample.tie_insights = strength_of ROE tie_summary
  /\ insight_favours DY FurtherSample.tie_insights = strength_of DY tie_summary
  /\ (strength_of PBR tie_summary = true ->
      insight_favours PBR FurtherSample.tie_insights = true)
  /\ (insight_favours PBR FurtherSample.tie_insights = true
      /\ strength_of PBR tie_summary = false
      <-> exists y t,
            primary PBR RenderSample.pbr_tie RenderSample.roe_tie RenderSample.dy_tie
              RenderSample.hhi_tie = JNum y
            /\ benchmark PBR RenderSample.pbr_tie RenderSample.roe_tie
                 RenderSample.dy_tie RenderSample.hhi_tie = JNum t
            /\ (y - t == 0)%Q).
Proof.
  apply (insights_agree_with_logic RenderSample.pbr_tie RenderSample.roe_tie
           RenderSample.dy_tie RenderSample.hhi_tie tie_summary
           FurtherSample.tie_insights); reflexivity.
Defined.

(** X7, an instance: code 2002 has no financial record. *)
Lemma build_canonical_unmatched_sample :
  exists rows row,
    build_canonical (H := Fixture.runtime) Sample.weighted_constituent
      Sample.undated_then_dated = Ok rows
    /\ row ∈ rows
    /\ r_index row = "yomiuri333" /\ r_code row = "2002"
    /\ r_name row = YStr "" /\ r_sector row = YStr "Unknown"
    /\ r_weight row = None
    /\ r_date row = None /\ r_pbr row = None /\ r_roe row = None
    /\ r_dy row = None /\ r_market_cap row = None.
Proof.
  apply (build_canonical_unmatched (H := Fixture.runtime) Sample.weighted_constituent
           Sample.undated_then_dated Sample.constituents_df FurtherSample.records_df
           FurtherSample.unmatched).
  - reflexivity.
  - reflexivity.
  - discriminate.
  - right. left.
  - intros f Hf. apply list_elem_of_In in Hf. simpl in Hf.
    destruct Hf as [<-|[<-|[]]]; reflexivity.
Defined.

(** X8, an instance: code 1001 has two records, one of them without a date. *)
Lemma build_canonical_matched_sample :
  exists rows row g,
    build_canonical (H := Fixture.runtime) Sample.weighted_constituent
      Sample.undated_then_dated = Ok rows
    /\ row ∈ rows /\ g ∈ FurtherSample.records_df
    /\ joins FurtherSample.matched g = true
    /\ r_index row = "yomiuri333" /\ r_code row = "1001"
    /\ r_date row = strftime (Runtime := Fixture.runtime) <$> f_date g
    /\ r_pbr row = to_numeric (H := Fixture.runtime) (f_pbr g)
    /\ r_roe row = to_numeric (H := Fixture.runtime) (f_roe g)
    /\ r_dy row = to_numeric (H := Fixture.runtime) (f_dy g)
    /\ r_market_cap row = to_numeric (H := Fixture.runtime) (f_market_cap g)
    /\ (forall h, h ∈ FurtherSample.records_df -> joins FurtherSample.matched h = true ->
          not_gt (compare_na_last Z.compare (f_date h) (f_date g)) = true).
Proof.
  destruct (FurtherSample.records_df) as [|f fs] eqn:E; [discriminate E|].
  rewrite <- E.
  apply (build_canonical_matched (H := Fixture.runtime) Sample.weighted_constituent
           Sample.undated_then_dated Sample.constituents_df FurtherSample.records_df
           FurtherSample.matched f).
  - reflexivity.
  - reflexivity.
  - left.
  - rewrite E. left.
  - injection E as <- _. reflexivity.
Defined.

(** X9, an instance: the table built from the documents of the test suite. *)
Lemma compute_pbr_stats_groups_sample :
  exists metrics,
    compute_pbr_stats (H := Fixture.runtime) (canonical_frame Sample.canonical_rows)
      = Ok metrics
    /\ pbr_count metrics !! "topix" = Some 3%nat
    /\ pbr_count metrics !! "nikkei225" = None.
Proof.
  destruct (compute_pbr_stats_groups (H := Fixture.runtime)
              (canonical_frame Sample.canonical_rows)) as (metrics & E & Hgroups);
    [reflexivity|reflexivity|].
  exists metrics. split; [exact E|]. split.
  - exact (proj1 (Hgroups "topix")).
  - exact (proj1 (Hgroups "nikkei225")).
Defined.

(** X10, an instance. *)
Lemma compute_roe_stats_groups_sample :
  exists metrics q50,
    compute_roe_stats (H := Fixture.runtime) (canonical_frame Sample.canonical_rows)
      = Ok metrics
    /\ roe_quantiles metrics !! "50" = Some q50
    /\ q50 !! "nikkei225" = None.
Proof.
  destruct (compute_roe_stats_groups (H := Fixture.runtime)
              (canonical_frame Sample.canonical_rows))
    as (metrics & q25 & q50 & q75 & E & _ & E50 & _ & Hgroups);
    [reflexivity|reflexivity|].
  exists metrics, q50. split; [exact E|]. split; [exact E50|].
  exact (proj1 (proj2 (proj2 (Hgroups "nikkei225")))).
Defined.



(** X13, an instance: the table of the test suite, written and read back. *)
Lemma load_dataframe_written_sample :
  exists loaded,
    load_dataframe
      (write_output FurtherSample.generated_at (canonical_frame Sample.canonical_rows))
      = Ok loaded
    /\ columns loaded = ["index"; "code"; "name"; "sector"; "weight"; "date";
                         "pbr"; "roe"; "dy"; "market_cap"]
    /\ List.length (rows loaded) = 5%nat.
Proof.
  destruct (load_dataframe_written FurtherSample.generated_at
              (canonical_frame Sample.canonical_rows))
    as (loaded & E & Hcolumns & Hlength & _).
  - apply (bool_decide_unpack _). vm_compute. exact I.
  - intros R. apply (f_equal List.length) in R. vm_compute in R. discriminate R.
  - exists loaded. split; [exact E|]. split; [exact Hcolumns|exact Hlength].
Defined.

(** X14, an instance: the canonical table without rows. *)
Lemma load_dataframe_written_empty_sample :
  exists loaded,
    load_dataframe (write_output FurtherSample.generated_at (canonical_frame []))
      = Ok loaded
    /\ columns loaded = [] /\ rows loaded = []
    /\ is_value_error (compute_pbr_stats (H := Fixture.runtime) loaded) = true
    /\ is_value_error (compute_roe_stats (H := Fixture.runtime) loaded) = true
    /\ is_value_error (compute_concentration_metrics (H := Fixture.runtime) loaded) = true.
Proof.
  apply (load_dataframe_written_empty (H := Fixture.runtime)
           FurtherSample.generated_at (canonical_frame [])).
  reflexivity.
Defined.

(** X15, an instance: records grouped by index name. *)
Lemma load_dataframe_mapping_sample :
  exists loaded,
    load_dataframe (YDict FurtherSample.grouped) = Ok loaded
    /\ List.length (rows loaded) = 2%nat
    /\ has_column loaded "index" = true.
Proof.
  destruct (load_dataframe_mapping FurtherSample.grouped)
    as (loaded & E & _ & _ & Hshape).
  - intros records. discriminate.
  - exists loaded. split; [exact E|exact Hshape].
Defined.

(** X16, an instance: the same records as financial records. *)
Lemma _normalize_financials_grouped_sample :
  exists fs,
    _normalize_financials (H := Fixture.runtime) (YDict FurtherSample.grouped) = Ok fs
    /\ List.length fs = 2%nat
    /\ forall f, f ∈ fs ->
         exists group entries item,
           (group, YList entries) ∈ FurtherSample.grouped /\ YDict item ∈ entries
           /\ f_index f = (if dict_has item "index"
                           then financial_index item else Some group).
Proof.
  apply (_normalize_financials_grouped (H := Fixture.runtime) FurtherSample.grouped).
  reflexivity.
Defined.

(** X18, an instance: the table of the test suite, without a yield document. *)
Lemma narrative_of_modules_sample :
  exists pbr roe concentration s insights,
    compute_pbr_stats (H := Fixture.runtime) (canonical_frame Sample.canonical_rows)
      = Ok pbr
    /\ compute_roe_stats (H := Fixture.runtime) (canonical_frame Sample.canonical_rows)
         = Ok roe
    /\ compute_concentration_metrics (H := Fixture.runtime)
         (canonical_frame Sample.canonical_rows) = Ok concentration
    /\ derive_logic_summary (pbr_document pbr) (roe_document roe) RenderSample.empty
         (hhi_document concentration) = Ok s
    /\ build_insights (pbr_document pbr) (roe_document roe) RenderSample.empty
         (hhi_document concentration) = Ok insights
    /\ insight_family <$> insights = [PBR; ROE; DY; HHI]
    /\ (bullets_of TOP10 (cautions s) = [Top10Missing]
        <-> rows (index_group (canonical_frame Sample.canonical_rows) "yomiuri333") = []).
Proof.
  apply (narrative_of_modules (H := Fixture.runtime)
           (canonical_frame Sample.canonical_rows) RenderSample.empty);
    first [reflexivity|exact I].
Defined.

